(** * pdf_editor: page-selection parsing and page assembly of [app.py]

    A shallow embedding of the range parser ([parse_page_ranges],
    [parse_reorder]), of the page-assembly functions ([extract_pages],
    [delete_pages], [rotate_pages], [encrypt_pdf]) and of the button handlers
    of the Streamlit tabs that call them.

    Conventions of the embedding.
    - A Python [str] is a [string]; a character is the code point of its
      byte, so the model covers the strings over U+0000..U+00FF.
    - A Python [int] is a [Z].
    - [set()] is a [gset Z]; [dict] is a [gmap Z Z].
    - A raised exception is the [Raise] case of [result]; [try/except] is a
      match on it.
    - What a Streamlit handler shows ([st.error], [st.warning], the download
      button) is the list of [UiEvent]s it emits, in order. *)

From Stdlib Require Import ZArith String Ascii List Lia Bool.
From stdpp Require Import base gmap strings list sorting.

Local Open Scope string_scope.
Local Open Scope list_scope.
Local Open Scope Z_scope.

(** ** Python builtins used by the parser *)

Module Py.

Definition code (c : ascii) : N := N_of_ascii c.

(** [str.isspace] on one character, which is also the class [\s] of [re] for
    [str] patterns: TAB..CR, FS..US, SPACE, NEL, NBSP. *)
Definition isspace (c : ascii) : bool :=
  let n := code c in
  (((9 <=? n) && (n <=? 13)) || ((28 <=? n) && (n <=? 32))
   || (n =? 133) || (n =? 160))%N.

(** The whitespace [int()] skips around a literal: the C [isspace] set for
    characters below 127, the Unicode spaces above. FS..US are not in it. *)
Definition int_space (c : ascii) : bool :=
  let n := code c in
  (((9 <=? n) && (n <=? 13)) || (n =? 32) || (n =? 133) || (n =? 160))%N.

Definition is_digit (c : ascii) : bool :=
  let n := code c in ((48 <=? n) && (n <=? 57))%N.

Definition digit_val (c : ascii) : Z := Z.of_N (code c) - 48.

Definition is_empty (s : string) : bool :=
  match s with EmptyString => true | String _ _ => false end.

(** [s.lstrip()], [s.rstrip()] and [s.strip()] without argument. *)
Fixpoint lstrip_by (sp : ascii -> bool) (s : string) : string :=
  match s with
  | EmptyString => EmptyString
  | String c s' => if sp c then lstrip_by sp s' else s
  end.

Fixpoint rstrip_by (sp : ascii -> bool) (s : string) : string :=
  match s with
  | EmptyString => EmptyString
  | String c s' =>
      let r := rstrip_by sp s' in
      if sp c && is_empty r then EmptyString else String c r
  end.

Definition strip_by (sp : ascii -> bool) (s : string) : string :=
  rstrip_by sp (lstrip_by sp s).

Definition strip : string -> string := strip_by isspace.

(** [s.replace(",", " ")]. *)
Fixpoint replace_comma_space (s : string) : string :=
  match s with
  | EmptyString => EmptyString
  | String c s' =>
      String (if Ascii.eqb c "," then " "%char else c) (replace_comma_space s')
  end.

(** ["-" in tok]. *)
Fixpoint contains_hyphen (tok : string) : bool :=
  match tok with
  | EmptyString => false
  | String c t => Ascii.eqb c "-" || contains_hyphen t
  end.

(** [tok.split("-", 1)]: at most one cut, at the first hyphen. *)
Fixpoint split_hyphen_1 (tok : string) : list string :=
  match tok with
  | EmptyString => [EmptyString]
  | String c t =>
      if Ascii.eqb c "-" then [EmptyString; t]
      else match split_hyphen_1 t with
           | x :: r => String c x :: r
           | [] => []
           end
  end.

(** The separator class [[,\s]] of the pattern given to [re.split]. *)
Definition is_sep (c : ascii) : bool := Ascii.eqb c "," || isspace c.

(** [re.split(r"[,\s]+", s)]: cuts at every maximal run of separators; a
    run at the very start or end leaves an empty string there.
    [in_sep] says that the previous character was a separator, [cur] is the
    piece being read, last character first. *)
Fixpoint split_go (in_sep : bool) (cur : string) (s : string) : list string :=
  match s with
  | EmptyString => [String.rev cur]
  | String c s' =>
      if is_sep c then
        if in_sep then split_go true cur s'
        else String.rev cur :: split_go true EmptyString s'
      else split_go false (String c cur) s'
  end.

Definition re_split_seps (s : string) : list string :=
  split_go false EmptyString s.

(** Limit of [int()] on the number of digits of a decimal literal
    ([sys.get_int_max_str_digits()], CPython's default). *)
Definition int_max_str_digits : nat := 4300.

(** Digits of a literal after the sign: decimal digits, a single underscore
    allowed between two digits. [prev] says that the previous character was
    a digit; the result is the value and the number of digits. *)
Fixpoint digits_go (acc : Z) (n : nat) (prev : bool) (s : string)
  : option (Z * nat) :=
  match s with
  | EmptyString => if prev then Some (acc, n) else None
  | String c t =>
      if is_digit c then digits_go (10 * acc + digit_val c) (S n) true t
      else if Ascii.eqb c "_" then
        if prev then digits_go acc n false t else None
      else None
  end.

Definition digits (s : string) : option Z :=
  match digits_go 0 0 false s with
  | Some (v, n) => if (int_max_str_digits <? n)%nat then None else Some v
  | None => None
  end.

(** [int(s)] for a [str]: [None] stands for the [ValueError] it raises. *)
Definition int (s : string) : option Z :=
  match strip_by int_space s with
  | String "+" t => digits t
  | String "-" t => Z.opp <$> digits t
  | t => digits t
  end.

(** [range(lo, hi)] and [range(lo, hi, -1)]. *)
Definition range (lo hi : Z) : list Z :=
  (λ k, lo + Z.of_nat k) <$> seq 0 (Z.to_nat (hi - lo)).

Definition range_down (lo hi : Z) : list Z :=
  (λ k, lo - Z.of_nat k) <$> seq 0 (Z.to_nat (lo - hi)).

(** [sorted(pages)] for a set of integers. *)
Definition sorted (pages : gset Z) : list Z :=
  merge_sort Z.le (elements pages).

End Py.

(** ** Exceptions *)

(** The [ValueError]s of the parser, one constructor per message of the source. *)
Inductive ValueError : Type :=
  | InvalidRangeToken (tok : string)      (* "无效范围: {tok}" *)
  | RangeOutOrInvalid (tok : string)      (* "超出页码范围或无效: {tok}" *)
  | InvalidPageToken (tok : string)       (* "无效页码: {tok}" *)
  | PageOutOfRange (p : Z)                (* "页码超出范围: {p}" *)
  | ReorderRangeOut (tok : string)        (* "超出页码范围: {tok}" *)
  | IntLiteral (s : string).              (* raised by int() itself *)

Inductive Exception : Type :=
  | EValueError (e : ValueError)
  | EIndexError.

Inductive result (E A : Type) : Type :=
  | Ok (a : A)
  | Raise (e : E).
Arguments Ok {E A} a.
Arguments Raise {E A} e.

(** An exception raised in [r] leaves the rest of the block unexecuted. *)
Global Instance result_bind {E} : MBind (result E) := λ A B k r,
  match r with
  | Ok a => k a
  | Raise e => Raise e
  end.

(** ** The range parser *)

(** [for p in range(lo, hi): pages.add(p)]. *)
Definition add_all (ps : list Z) (pages : gset Z) : gset Z :=
  foldl (λ acc p, {[p]} ∪ acc) pages ps.

(** Body of the loop of [parse_page_ranges] for one non-empty token. *)
Definition page_ranges_token (tok : string) (max_page : Z) (pages : gset Z)
  : result ValueError (gset Z) :=
  if Py.contains_hyphen tok then
    match Py.split_hyphen_1 tok with
    | [a; b] =>
        match Py.int a, Py.int b with
        | Some start, Some end_ =>
            if (start <? 1) || (end_ <? 1) || (start >? max_page)
               || (end_ >? max_page) || (start >? end_)
            then Raise (RangeOutOrInvalid tok)
            else Ok (add_all (Py.range (start - 1) end_) pages)
        | _, _ => Raise (InvalidRangeToken tok)
        end
    | _ => Raise (InvalidRangeToken tok)
    end
  else
    match Py.int tok with
    | Some p =>
        if (p <? 1) || (p >? max_page) then Raise (PageOutOfRange p)
        else Ok ({[p - 1]} ∪ pages)
    | None => Raise (InvalidPageToken tok)
    end.

(** [for tok in tokens: if not tok: continue ...]. *)
Fixpoint page_ranges_loop (tokens : list string) (max_page : Z)
    (pages : gset Z) : result ValueError (gset Z) :=
  match tokens with
  | [] => Ok pages
  | tok :: rest =>
      if Py.is_empty tok then page_ranges_loop rest max_page pages
      else pages' ← page_ranges_token tok max_page pages;
           page_ranges_loop rest max_page pages'
  end.

Definition parse_page_ranges (ranges_str : string) (max_page : Z)
  : result ValueError (list Z) :=
  if Py.is_empty (Py.strip ranges_str) then Ok []
  else
    pages ← page_ranges_loop (Py.re_split_seps (Py.strip ranges_str))
              max_page ∅;
    Ok (Py.sorted pages).

(** Body of the loop of [parse_reorder] for one non-empty token. *)
Definition reorder_token (tok : string) (max_page : Z) (seq : list Z)
  : result ValueError (list Z) :=
  if Py.contains_hyphen tok then
    match Py.split_hyphen_1 tok with
    | [a; b] =>
        match Py.int a, Py.int b with
        | Some start, Some end_ =>
            if (start <? 1) || (end_ <? 1) || (start >? max_page)
               || (end_ >? max_page)
            then Raise (ReorderRangeOut tok)
            else if start <=? end_
            then Ok (seq ++ Py.range (start - 1) end_)
            else Ok (seq ++ Py.range_down (start - 1) (end_ - 2))
        | _, _ => Raise (InvalidRangeToken tok)
        end
    | _ => Raise (InvalidRangeToken tok)
    end
  else
    match Py.int tok with
    | Some p =>
        if (p <? 1) || (p >? max_page) then Raise (PageOutOfRange p)
        else Ok (seq ++ [p - 1])
    | None => Raise (IntLiteral tok)
    end.

Fixpoint reorder_loop (tokens : list string) (max_page : Z) (seq : list Z)
  : result ValueError (list Z) :=
  match tokens with
  | [] => Ok seq
  | tok :: rest =>
      if Py.is_empty tok then reorder_loop rest max_page seq
      else seq' ← reorder_token tok max_page seq;
           reorder_loop rest max_page seq'
  end.

Definition parse_reorder (ranges_str : string) (max_page : Z)
  : result ValueError (list Z) :=
  if Py.is_empty (Py.strip ranges_str) then Ok []
  else reorder_loop (Py.re_split_seps (Py.strip ranges_str)) max_page [].

(** ** Page assembly *)

Section Assembly.

(** A page object of pypdf is opaque; a loaded document is the list
    [reader.pages]. [page_rotate angle page] is [page.rotate(angle)]. *)
Context {Page : Type}.
Variable page_rotate : Z -> Page -> Page.

(** The state of a [PdfWriter]: the pages added so far and the passwords given
    to [writer.encrypt], user password first. [writer.write(out)] serialises
    exactly this state, so the output document is the final writer. *)
Record PdfWriter : Type := mkWriter {
  w_pages : list Page;
  w_encrypt : option (string * string)
}.

Definition new_writer : PdfWriter := mkWriter [] None.

Definition add_page (w : PdfWriter) (page : Page) : PdfWriter :=
  mkWriter (w_pages w ++ [page]) (w_encrypt w).

Definition encrypt (w : PdfWriter) (user_pwd owner_pwd : string) : PdfWriter :=
  mkWriter (w_pages w) (Some (user_pwd, owner_pwd)).

Definition get_page_count (pages : list Page) : Z := Z.of_nat (length pages).

(** [reader.pages[i]]: a negative index counts from the end, an index out of
    both ranges raises [IndexError]. *)
Definition pages_getitem (pages : list Page) (i : Z) : result Exception Page :=
  let n := get_page_count pages in
  let j := if i <? 0 then i + n else i in
  if (0 <=? j) && (j <? n) then
    match pages !! Z.to_nat j with
    | Some page => Ok page
    | None => Raise EIndexError
    end
  else Raise EIndexError.

(** [for i in idxs: writer.add_page(reader.pages[i])]. *)
Fixpoint add_pages_at (pages : list Page) (idxs : list Z) (w : PdfWriter)
  : result Exception PdfWriter :=
  match idxs with
  | [] => Ok w
  | i :: rest =>
      page ← pages_getitem pages i;
      add_pages_at pages rest (add_page w page)
  end.

Definition extract_pages (pages : list Page) (page_indices : list Z)
  : result Exception PdfWriter :=
  add_pages_at pages page_indices new_writer.

(** [[i for i in range(n) if i not in s]]. *)
Definition not_in_set (n : Z) (s : gset Z) : list Z :=
  filter (λ i, i ∉ s) (Py.range 0 n).

Definition delete_pages (pages : list Page) (page_indices : list Z)
  : result Exception PdfWriter :=
  let keep := not_in_set (get_page_count pages) (list_to_set page_indices) in
  add_pages_at pages keep new_writer.

(** [rotate_map[i] in (90, 180, 270)]. *)
Definition angle_ok (a : Z) : bool := bool_decide (a ∈ [90; 180; 270]).

(** [if i in rotate_map and rotate_map[i] in (90, 180, 270):
    page.rotate(rotate_map[i])]: the page as it is added afterwards. *)
Definition rotate_one (rotate_map : gmap Z Z) (i : Z) (page : Page) : Page :=
  match rotate_map !! i with
  | Some a => if angle_ok a then page_rotate a page else page
  | None => page
  end.

(** [for i, page in enumerate(reader.pages): ...], from index [i] on. *)
Fixpoint rotate_loop (i : Z) (pages : list Page) (rotate_map : gmap Z Z)
    (w : PdfWriter) : PdfWriter :=
  match pages with
  | [] => w
  | page :: rest =>
      rotate_loop (i + 1) rest rotate_map
        (add_page w (rotate_one rotate_map i page))
  end.

Definition rotate_pages (pages : list Page) (rotate_map : gmap Z Z)
  : PdfWriter :=
  rotate_loop 0 pages rotate_map new_writer.

(** [for page in reader.pages: writer.add_page(page)]. *)
Definition add_all_pages (pages : list Page) (w : PdfWriter) : PdfWriter :=
  foldl add_page w pages.

(** [owner_pwd or user_pwd], [owner_pwd] being a [str] or [None]. *)
Definition or_else (owner_pwd : option string) (user_pwd : string) : string :=
  match owner_pwd with
  | Some o => if Py.is_empty o then user_pwd else o
  | None => user_pwd
  end.

Definition encrypt_pdf (pages : list Page) (user_pwd : string)
    (owner_pwd : option string) (allow_print allow_copy : bool) : PdfWriter :=
  let w := add_all_pages pages new_writer in
  encrypt w user_pwd (or_else owner_pwd user_pwd).

(** ** The button handlers of the tabs *)

Inductive ErrorMsg : Type :=
  | ParseFailed (e : Exception)        (* "解析失败：{e}" *)
  | DeleteListFailed (e : Exception)   (* "删除页列表解析失败：{e}" *)
  | OrderFailed (e : Exception)        (* "顺序解析失败：{e}" *)
  | SetUserPassword.                   (* "请设置用户密码。" *)

Inductive WarningMsg : Type :=
  | NoRangeGiven        (* "未指定页码范围。" *)
  | NothingToExport     (* "没有可导出的页面。" *)
  | NoRotation.         (* "未指定页面，将不进行任何旋转。" *)

Inductive UiEvent : Type :=
  | StError (m : ErrorMsg)
  | StWarning (m : WarningMsg)
  | DownloadButton (out : PdfWriter)
  | Uncaught (e : Exception).

(** A [ValueError] of the parser, seen by [except Exception as e]. *)
Definition parsed (r : result ValueError (list Z)) : result Exception (list Z) :=
  match r with
  | Ok l => Ok l
  | Raise e => Raise (EValueError e)
  end.

(** Tab "拆分 / 提取", button "提取为新 PDF". *)
Definition extract_button (b : list Page) (ranges_str : string) : list UiEvent :=
  let n := get_page_count b in
  match parsed (parse_page_ranges ranges_str n) with
  | Ok idxs =>
      match idxs with
      | [] => [StWarning NoRangeGiven]
      | _ :: _ =>
          match extract_pages b idxs with
          | Ok out => [DownloadButton out]
          | Raise e => [StError (ParseFailed e)]
          end
      end
  | Raise e => [StError (ParseFailed e)]
  end.

(** Tab "拆分 / 提取", button "删除这些页并导出". *)
Definition delete_button (b : list Page) (ranges_str : string) : list UiEvent :=
  let n := get_page_count b in
  match parsed (parse_page_ranges ranges_str n) with
  | Ok idxs =>
      match idxs with
      | [] => [StWarning NoRangeGiven]
      | _ :: _ =>
          match delete_pages b idxs with
          | Ok out => [DownloadButton out]
          | Raise e => [StError (ParseFailed e)]
          end
      end
  | Raise e => [StError (ParseFailed e)]
  end.

(** Tab "重排与删除": the delete set read from [del_str], with the events of
    reading it. *)
Definition reorder_del_set (n2 : Z) (del_str : string) : gset Z * list UiEvent :=
  if Py.is_empty (Py.strip del_str) then (∅, [])
  else
    match parsed (parse_page_ranges (Py.replace_comma_space del_str) n2) with
    | Ok l => (list_to_set l, [])
    | Raise e => (∅, [StError (DeleteListFailed e)])
    end.

(** [final_idxs] of the button "导出重排/删除后的 PDF", with the events of
    computing it. *)
Definition reorder_final_idxs (n2 : Z) (del_set : gset Z) (order_str : string)
  : list Z * list UiEvent :=
  let after_delete_idxs := not_in_set n2 del_set in
  if Py.is_empty (Py.strip order_str) then (after_delete_idxs, [])
  else
    match parsed (parse_reorder order_str n2) with
    | Ok re_idx =>
        (filter (λ i, i ∈ after_delete_idxs) re_idx, [])
    | Raise e => (after_delete_idxs, [StError (OrderFailed e)])
    end.

Definition reorder_button (b2 : list Page) (del_str order_str : string)
  : list UiEvent :=
  let n2 := get_page_count b2 in
  let '(del_set, ev_del) := reorder_del_set n2 del_str in
  let '(final_idxs, ev_order) := reorder_final_idxs n2 del_set order_str in
  ev_del ++ ev_order ++
  match final_idxs with
  | [] => [StWarning NothingToExport]
  | _ :: _ =>
      match add_pages_at b2 final_idxs new_writer with
      | Ok out => [DownloadButton out]
      | Raise e => [Uncaught e]
      end
  end.

(** [{i: angle for i in idxs}]. *)
Definition rotate_map_of (idxs : list Z) (angle : Z) : gmap Z Z :=
  list_to_map ((λ i, (i, angle)) <$> idxs).

(** Tab "旋转页面", button "旋转并导出". *)
Definition rotate_button (b3 : list Page) (angle : Z) (pages_str : string)
  : list UiEvent :=
  let n3 := get_page_count b3 in
  match parsed (parse_page_ranges pages_str n3) with
  | Ok idxs =>
      (match idxs with [] => [StWarning NoRotation] | _ :: _ => [] end) ++
      [DownloadButton (rotate_pages b3 (rotate_map_of idxs angle))]
  | Raise e => [StError (ParseFailed e)]
  end.

(** Tab "加密", button "加密并导出"; [owner_pwd or None] is passed on. *)
Definition encrypt_button (b4 : list Page) (user_pwd owner_pwd : string)
    (allow_print allow_copy : bool) : list UiEvent :=
  if Py.is_empty user_pwd then [StError SetUserPassword]
  else
    let owner := if Py.is_empty owner_pwd then None else Some owner_pwd in
    [DownloadButton (encrypt_pdf b4 user_pwd owner allow_print allow_copy)].

End Assembly.

Arguments PdfWriter : clear implicits.
Arguments UiEvent : clear implicits.

(** ** Merging, text extraction and metadata *)

Section Documents.

Context {Page : Type}.

(** [page.extract_text()] of pypdf: the text of a page, or an exception. *)
Variable extract_text : Page → result Exception string.

(** [merge_pdfs]: the pages of every file, file after file; the names are
    carried along and not used. *)
Definition merge_pdfs (files_with_names : list (string * list Page))
  : PdfWriter Page :=
  foldl (λ w '(name, b), add_all_pages b w) new_writer files_with_names.

(** [l[i]] for a Python list: as [reader.pages[i]]. *)
Definition list_getitem {A : Type} (l : list A) (i : Z) : result Exception A :=
  let n := Z.of_nat (length l) in
  let j := if i <? 0 then i + n else i in
  if (0 <=? j) && (j <? n) then
    match l !! Z.to_nat j with
    | Some x => Ok x
    | None => Raise EIndexError
    end
  else Raise EIndexError.

(** [sorted(order, key=lambda x: x[0])]. Python's sort is stable; the
    insertion below puts an element behind those of the same key that came
    before it, which gives the same list. *)
Fixpoint insert_by_key (x : Z * Z) (acc : list (Z * Z)) : list (Z * Z) :=
  match acc with
  | [] => [x]
  | y :: rest =>
      if y.1 <=? x.1 then y :: insert_by_key x rest else x :: y :: rest
  end.

Definition sorted_by_key (order : list (Z * Z)) : list (Z * Z) :=
  foldl (λ acc x, insert_by_key x acc) [] order.

(** Tab "合并": [order] pairs the number typed for the file at position [i]
    with [i]; [number_input i] is the value of that widget. *)
Definition merge_order (number_input : nat → Z)
    (valid_files : list (string * list Page)) : list (Z * Z) :=
  imap (λ i _, (number_input i, Z.of_nat i)) valid_files.

(** [[valid_files[i] for _, i in sorted(order, ...)]]. *)
Fixpoint files_at (valid_files : list (string * list Page))
    (sorted_order : list (Z * Z))
  : result Exception (list (string * list Page)) :=
  match sorted_order with
  | [] => Ok []
  | (_, i) :: rest =>
      f ← list_getitem valid_files i;
      fs ← files_at valid_files rest;
      Ok (f :: fs)
  end.

Definition order_sorted (number_input : nat → Z)
    (valid_files : list (string * list Page))
  : result Exception (list (string * list Page)) :=
  files_at valid_files (sorted_by_key (merge_order number_input valid_files)).

(** Button "合并 PDF". *)
Definition merge_button (number_input : nat → Z)
    (valid_files : list (string * list Page)) : list (UiEvent Page) :=
  match order_sorted number_input valid_files with
  | Ok files_with_names => [DownloadButton (merge_pdfs files_with_names)]
  | Raise e => [Uncaught e]
  end.

(** The text of one selected page inside the [try] of
    [extract_text_by_pages]: an exception gives the empty text.
    ([t or ""] is [t] for a string.) *)
Definition text_or_empty (pages : list Page) (i : Z) : string :=
  match (page ← pages_getitem pages i; extract_text page) with
  | Ok t => t
  | Raise _ => EmptyString
  end.

(** The list [texts] after the loop of [extract_text_by_pages], started
    with [texts]. *)
Fixpoint page_texts (pages : list Page) (page_indices : list Z)
    (texts : list string) : list string :=
  match page_indices with
  | [] => texts
  | i :: rest =>
      if (0 <=? i) && (i <? get_page_count pages)
      then page_texts pages rest (texts ++ [text_or_empty pages i])
      else page_texts pages rest texts
  end.

(** ["\n".join(texts)]. *)
Fixpoint join_lines (texts : list string) : string :=
  match texts with
  | [] => EmptyString
  | [t] => t
  | t :: rest => (t ++ String "010" (join_lines rest))%string
  end.

Definition extract_text_by_pages (pages : list Page) (page_indices : list Z)
  : string :=
  join_lines (page_texts pages page_indices []).

(** What the text expander of the tab "阅读/预览" shows. *)
Inductive TextEvent : Type :=
  | TextArea (text : string)
  | TextAreaNoText            (* "(无可提取文本，可能是扫描件或图片)" *)
  | TextError (e : Exception). (* "解析失败：{e}" *)

(** Button "提取文本". *)
Definition extract_text_button (b : list Page) (ranges_str : string)
  : TextEvent :=
  let n := get_page_count b in
  let idxs :=
    if Py.is_empty (Py.strip ranges_str) then Ok (Py.range 0 n)
    else parsed (parse_reorder ranges_str n) in
  match idxs with
  | Ok idxs =>
      let text := extract_text_by_pages b idxs in
      if Py.is_empty text then TextAreaNoText else TextArea text
  | Raise e => TextError e
  end.

(** The document information of a writer next to its pages. [info0] is
    what a new [PdfWriter] of pypdf starts with. *)
Variable info0 : gmap string string.

(** [writer.add_metadata(new_meta)]: the given keys are set. *)
Definition add_metadata (info new_meta : gmap string string)
  : gmap string string :=
  new_meta ∪ info.

Definition edit_metadata (pages : list Page) (new_meta : gmap string string)
  : PdfWriter Page * gmap string string :=
  let w := add_all_pages pages new_writer in
  if decide (new_meta = ∅) then (w, info0)
  else (w, add_metadata info0 new_meta).

(** [if value: new_meta[key] = value]. *)
Definition set_if (key value : string) (new_meta : gmap string string)
  : gmap string string :=
  if Py.is_empty value then new_meta else <[key := value]> new_meta.

(** Tab "元数据", button "写入并导出". [mod_date] is
    [datetime.now().strftime("D:%Y%m%d%H%M%S+00'00'")]. *)
Definition metadata_new_meta (title author subject keywords producer creator
    mod_date : string) : gmap string string :=
  let new_meta := set_if "/Title" title ∅ in
  let new_meta := set_if "/Author" author new_meta in
  let new_meta := set_if "/Subject" subject new_meta in
  let new_meta := set_if "/Keywords" keywords new_meta in
  let new_meta := set_if "/Producer" producer new_meta in
  let new_meta := set_if "/Creator" creator new_meta in
  <["/ModDate" := mod_date]> new_meta.

Definition metadata_button (b5 : list Page) (title author subject keywords
    producer creator mod_date : string)
  : PdfWriter Page * gmap string string :=
  edit_metadata b5
    (metadata_new_meta title author subject keywords producer creator
       mod_date).

End Documents.

(** ** Notions used to state the properties *)

(** The non-empty pieces of [s] between separators; [cur] is the piece being
    read, last character first. Both loops of the parser skip the empty
    pieces that [re.split] leaves, so they see exactly this list. *)
Fixpoint fields_go (cur : string) (s : string) : list string :=
  match s with
  | EmptyString => if Py.is_empty cur then [] else [String.rev cur]
  | String c s' =>
      if Py.is_sep c then
        if Py.is_empty cur then fields_go EmptyString s'
        else String.rev cur :: fields_go EmptyString s'
      else fields_go (String c cur) s'
  end.

Definition fields (s : string) : list string := fields_go EmptyString s.

Definition nonempty (tok : string) : Prop := Py.is_empty tok = false.

(** All pages of a set are indices of a document of [max_page] pages. *)
Definition in_bounds (max_page : Z) (pages : gset Z) : Prop :=
  ∀ x, x ∈ pages → 0 ≤ x < max_page.

(** The kind of an error: which message of the source it is, without the
    token or number put into it. *)
Inductive ErrorKind : Type :=
  | KInvalidRangeToken | KRangeOutOrInvalid | KInvalidPageToken
  | KPageOutOfRange | KReorderRangeOut | KIntLiteral.

Definition error_kind (e : ValueError) : ErrorKind :=
  match e with
  | InvalidRangeToken _ => KInvalidRangeToken
  | RangeOutOrInvalid _ => KRangeOutOrInvalid
  | InvalidPageToken _ => KInvalidPageToken
  | PageOutOfRange _ => KPageOutOfRange
  | ReorderRangeOut _ => KReorderRangeOut
  | IntLiteral _ => KIntLiteral
  end.

(** Every character of [s] is a separator of the selection grammar. *)
Fixpoint all_seps (s : string) : bool :=
  match s with
  | EmptyString => true
  | String c s' => Py.is_sep c && all_seps s'
  end.


(** An entry [(number, position)] of the merge order comes before another:
    smaller number, or the same number and an earlier position. *)
Definition before (x y : Z * Z) : Prop :=
  x.1 < y.1 ∨ (x.1 = y.1 ∧ x.2 < y.2).

(** The text taken for a page: what [extract_text] gives, or nothing when
    it raises. *)
Definition page_text {Page : Type}
    (extract_text : Page → result Exception string) (page : Page) : string :=
  match extract_text page with
  | Ok t => t
  | Raise _ => EmptyString
  end.

(** What the text area shows for a text: the placeholder for an empty
    text. *)
Definition shown (text : string) : TextEvent :=
  if Py.is_empty text then TextAreaNoText else TextArea text.

(** The six fields of the metadata form, with the key each one sets. *)
Definition meta_fields (title author subject keywords producer creator : string)
  : list (string * string) :=
  [("/Title", title); ("/Author", author); ("/Subject", subject);
   ("/Keywords", keywords); ("/Producer", producer); ("/Creator", creator)].

(** The token is a range [A-B] of two integers with [A > B]. *)
Definition descending_range (tok : string) : Prop :=
  Py.contains_hyphen tok = true ∧
  ∃ a b start end_,
    Py.split_hyphen_1 tok = [a; b] ∧ Py.int a = Some start ∧
    Py.int b = Some end_ ∧ end_ < start.

(** * Properties *)

(** ** The builtins on small inputs *)

Example re_split_seps_example :
  Py.re_split_seps ", a,,b " = [""; "a"; "b"; ""] ∧
  Py.re_split_seps "1-3,5,7-9" = ["1-3"; "5"; "7-9"].
Proof. split; reflexivity. Qed.

Example int_example :
  Py.int "1_0" = Some 10 ∧ Py.int "1__0" = None ∧ Py.int "-3" = Some (-3) ∧
  Py.int "" = None ∧ Py.int "+" = None ∧ Py.int " 7 " = Some 7 ∧
  Py.int "x" = None.
Proof. repeat split; reflexivity. Qed.

Example split_hyphen_1_example :
  Py.split_hyphen_1 "5--3" = ["5"; "-3"] ∧ Py.split_hyphen_1 "-3" = [""; "3"] ∧
  Py.split_hyphen_1 "7" = ["7"].
Proof. repeat split; reflexivity. Qed.

Example range_example :
  Py.range 0 3 = [0; 1; 2] ∧ Py.range_down 4 1 = [4; 3; 2] ∧
  Py.range 3 3 = [] ∧ Py.sorted ({[3]} ∪ {[1]} ∪ {[2]}) = [1; 2; 3].
Proof. repeat split; vm_compute; reflexivity. Qed.

(** ** Ranges, sets and sorting *)

Lemma elem_of_range (x lo hi : Z) : x ∈ Py.range lo hi ↔ lo ≤ x < hi.
Proof.
  unfold Py.range. rewrite list_elem_of_fmap. split.
  - intros (k & -> & Hk). apply elem_of_seq in Hk. lia.
  - intros Hx. exists (Z.to_nat (x - lo)). split; [lia|].
    apply elem_of_seq. lia.
Qed.

Lemma elem_of_add_all (x : Z) (ps : list Z) (pages : gset Z) :
  x ∈ add_all ps pages ↔ x ∈ ps ∨ x ∈ pages.
Proof.
  unfold add_all. revert pages.
  induction ps as [|p ps IH]; intros pages; simpl.
  - rewrite elem_of_nil. tauto.
  - rewrite IH, elem_of_cons, elem_of_union, elem_of_singleton. tauto.
Qed.

Lemma StronglySorted_le_NoDup_lt (l : list Z) :
  StronglySorted Z.le l → NoDup l → StronglySorted Z.lt l.
Proof.
  induction 1 as [|x l Hl IH Hx]; intros Hnd; [constructor|].
  apply NoDup_cons in Hnd as [Hnotin Hnd].
  constructor; [auto|].
  rewrite Forall_forall in Hx |- *. intros y Hy.
  assert (x ≠ y) by (intros ->; auto).
  specialize (Hx y Hy). lia.
Qed.

Lemma sorted_strictly_ascending (pages : gset Z) :
  StronglySorted Z.lt (Py.sorted pages).
Proof.
  apply StronglySorted_le_NoDup_lt.
  - apply (StronglySorted_merge_sort Z.le).
  - unfold Py.sorted. rewrite merge_sort_Permutation. apply NoDup_elements.
Qed.

Lemma elem_of_sorted (x : Z) (pages : gset Z) : x ∈ Py.sorted pages ↔ x ∈ pages.
Proof.
  unfold Py.sorted. rewrite merge_sort_Permutation. apply elem_of_elements.
Qed.

Lemma range_snoc (lo hi : Z) :
  lo < hi → Py.range lo hi = Py.range lo (hi - 1) ++ [hi - 1].
Proof.
  intros Hlt. unfold Py.range.
  replace (Z.to_nat (hi - lo)) with (Z.to_nat (hi - 1 - lo) + 1)%nat by lia.
  rewrite seq_app, fmap_app. simpl. do 3 f_equal. lia.
Qed.

Lemma range_down_cons (lo hi : Z) :
  hi < lo → Py.range_down lo hi = lo :: Py.range_down (lo - 1) hi.
Proof.
  intros Hlt. unfold Py.range_down.
  replace (Z.to_nat (lo - hi)) with (S (Z.to_nat (lo - 1 - hi))) by lia.
  simpl. f_equal; [lia|].
  rewrite <- fmap_S_seq, <- list_fmap_compose.
  apply list_fmap_ext. intros ? k _. simpl. lia.
Qed.

Lemma range_nil (lo hi : Z) : hi ≤ lo → Py.range lo hi = [].
Proof.
  intros. unfold Py.range. by replace (Z.to_nat (hi - lo)) with 0%nat by lia.
Qed.

Lemma range_down_nil (lo hi : Z) : lo ≤ hi → Py.range_down lo hi = [].
Proof.
  intros. unfold Py.range_down.
  by replace (Z.to_nat (lo - hi)) with 0%nat by lia.
Qed.

(** [range(hi - 1, lo - 1, -1)] walks [range(lo, hi)] backwards. *)
Lemma range_down_rev (lo hi : Z) :
  Py.range_down (hi - 1) (lo - 1) = rev (Py.range lo hi).
Proof.
  remember (Z.to_nat (hi - lo)) as n eqn:Hn.
  revert hi Hn. induction n as [|n IH]; intros hi Hn.
  - rewrite range_nil, range_down_nil by lia. done.
  - rewrite range_snoc, range_down_cons by lia.
    rewrite rev_app_distr. simpl. f_equal. apply IH. lia.
Qed.

Lemma range_cons (lo hi : Z) :
  lo < hi → Py.range lo hi = lo :: Py.range (lo + 1) hi.
Proof.
  intros Hlt. unfold Py.range.
  replace (Z.to_nat (hi - lo)) with (S (Z.to_nat (hi - (lo + 1)))) by lia.
  simpl. f_equal; [lia|].
  rewrite <- fmap_S_seq, <- list_fmap_compose.
  apply list_fmap_ext. intros ? k _. simpl. lia.
Qed.

Lemma range_ascending (lo hi : Z) : StronglySorted Z.lt (Py.range lo hi).
Proof.
  remember (Z.to_nat (hi - lo)) as n eqn:Hn.
  revert lo Hn. induction n as [|n IH]; intros lo Hn.
  - rewrite range_nil by lia. constructor.
  - rewrite range_cons by lia. constructor; [apply IH; lia|].
    apply Forall_forall. intros x Hx%elem_of_range. lia.
Qed.

Lemma StronglySorted_filter {A} (R : relation A) (P : A → Prop)
    `{∀ x, Decision (P x)} (l : list A) :
  StronglySorted R l → StronglySorted R (filter P l).
Proof.
  induction 1 as [|x l Hl IH Hx]; [constructor|].
  rewrite filter_cons. destruct (decide (P x)); [|done].
  constructor; [done|].
  rewrite Forall_forall in Hx |- *.
  intros y [_ Hy]%list_elem_of_filter. auto.
Qed.

(** ** The non-empty tokens of a selection string *)

Lemma is_empty_rev_app (s1 s2 : string) :
  Py.is_empty (String.rev_app s1 s2) = Py.is_empty s1 && Py.is_empty s2.
Proof.
  revert s2. induction s1 as [|c s1 IH]; intros s2; simpl; [done|].
  rewrite IH. simpl. apply andb_false_r.
Qed.

Lemma is_empty_rev (s : string) : Py.is_empty (String.rev s) = Py.is_empty s.
Proof. unfold String.rev. rewrite is_empty_rev_app. apply andb_true_r. Qed.

Lemma filter_split_go (in_sep : bool) (cur s : string) :
  (in_sep = true → cur = EmptyString) →
  filter nonempty (Py.split_go in_sep cur s) = fields_go cur s.
Proof.
  revert in_sep cur. induction s as [|c s IH]; intros in_sep cur Hinv; simpl.
  - pose proof (is_empty_rev cur) as Hr. rewrite filter_cons, filter_nil.
    destruct (Py.is_empty cur).
    + by rewrite decide_False by (unfold nonempty; congruence).
    + by rewrite decide_True by (unfold nonempty; congruence).
  - destruct (Py.is_sep c).
    + destruct in_sep.
      * rewrite Hinv by done. simpl. by apply IH.
      * pose proof (is_empty_rev cur) as Hr. rewrite filter_cons, IH by done.
        destruct (Py.is_empty cur).
        -- by rewrite decide_False by (unfold nonempty; congruence).
        -- by rewrite decide_True by (unfold nonempty; congruence).
    + by apply IH.
Qed.

Lemma isspace_is_sep (c : ascii) : Py.isspace c = true → Py.is_sep c = true.
Proof. unfold Py.is_sep. intros ->. apply orb_true_r. Qed.

Lemma fields_lstrip (s : string) : fields (Py.lstrip_by Py.isspace s) = fields s.
Proof.
  unfold fields. induction s as [|c s IH]; simpl; [done|].
  destruct (Py.isspace c) eqn:Hc; [|done].
  by rewrite (isspace_is_sep c Hc).
Qed.

Lemma fields_go_rstrip (cur s : string) :
  fields_go cur (Py.rstrip_by Py.isspace s) = fields_go cur s.
Proof.
  revert cur. induction s as [|c s IH]; intros cur; simpl; [done|].
  destruct (Py.isspace c && Py.is_empty (Py.rstrip_by Py.isspace s)) eqn:Hc.
  - apply andb_true_iff in Hc as [Hc Hr].
    rewrite (isspace_is_sep c Hc).
    assert (fields_go EmptyString s = []) as ->.
    { rewrite <- IH. by destruct (Py.rstrip_by Py.isspace s). }
    done.
  - simpl. rewrite !IH. done.
Qed.

Lemma fields_strip (s : string) : fields (Py.strip s) = fields s.
Proof.
  unfold Py.strip, Py.strip_by, fields.
  rewrite fields_go_rstrip. apply fields_lstrip.
Qed.

Lemma fields_go_replace (cur s : string) :
  fields_go cur (Py.replace_comma_space s) = fields_go cur s.
Proof.
  revert cur. induction s as [|c s IH]; intros cur; simpl; [done|].
  destruct (Ascii.eqb_spec c ",") as [->|Hne].
  - simpl. by rewrite !IH.
  - rewrite !IH. done.
Qed.

Lemma fields_empty_strip (s : string) :
  Py.is_empty (Py.strip s) = true → fields s = [].
Proof.
  intros He. rewrite <- fields_strip. by destruct (Py.strip s).
Qed.

Lemma page_ranges_loop_filter tokens max_page pages :
  page_ranges_loop tokens max_page pages
  = page_ranges_loop (filter nonempty tokens) max_page pages.
Proof.
  revert pages. induction tokens as [|tok tokens IH]; intros pages; [done|].
  rewrite filter_cons. destruct (decide (nonempty tok)) as [Hne|He]; simpl.
  - rewrite Hne.
    destruct (page_ranges_token tok max_page pages); simpl; [apply IH|done].
  - apply not_false_is_true in He. rewrite He. apply IH.
Qed.

(** [parse_page_ranges] is a function of the non-empty tokens alone. *)
Lemma parse_page_ranges_fields (s : string) (max_page : Z) :
  parse_page_ranges s max_page
  = (pages ← page_ranges_loop (fields s) max_page ∅; Ok (Py.sorted pages)).
Proof.
  unfold parse_page_ranges.
  destruct (Py.is_empty (Py.strip s)) eqn:He.
  - rewrite (fields_empty_strip s He). simpl.
    unfold Py.sorted. by rewrite elements_empty.
  - rewrite page_ranges_loop_filter. unfold Py.re_split_seps.
    rewrite filter_split_go by done.
    fold (fields (Py.strip s)). by rewrite fields_strip.
Qed.

(** Turning the commas of the delete list into spaces changes nothing. *)
Lemma parse_page_ranges_replace (s : string) (max_page : Z) :
  parse_page_ranges (Py.replace_comma_space s) max_page
  = parse_page_ranges s max_page.
Proof.
  rewrite !parse_page_ranges_fields. unfold fields.
  by rewrite fields_go_replace.
Qed.

(** ** The complement of a set of indices *)

Lemma elem_of_not_in_set (i n : Z) (s : gset Z) :
  i ∈ not_in_set n s ↔ 0 ≤ i < n ∧ i ∉ s.
Proof.
  unfold not_in_set. rewrite list_elem_of_filter, elem_of_range. tauto.
Qed.

Lemma not_in_set_ascending (n : Z) (s : gset Z) :
  StronglySorted Z.lt (not_in_set n s).
Proof. apply StronglySorted_filter, range_ascending. Qed.

Lemma not_in_set_in_range (n : Z) (s : gset Z) :
  Forall (λ i, 0 ≤ i < n) (not_in_set n s).
Proof.
  apply Forall_forall. intros i Hi. by apply elem_of_not_in_set in Hi as [? _].
Qed.

(** ** Writers and page lists *)

Section Writers.
Context {Page : Type}.
Variable page_rotate : Z → Page → Page.
Implicit Types (pages : list Page) (w : PdfWriter Page).

Lemma add_all_pages_spec pages w :
  add_all_pages pages w = mkWriter (w_pages w ++ pages) (w_encrypt w).
Proof.
  unfold add_all_pages. revert w.
  induction pages as [|page pages IH]; intros w; simpl.
  - rewrite app_nil_r. by destruct w.
  - rewrite IH. simpl. by rewrite <- app_assoc.
Qed.

Lemma pages_getitem_in_range pages (i : Z) :
  0 ≤ i < get_page_count pages →
  ∃ page, pages_getitem pages i = Ok page ∧ pages !! Z.to_nat i = Some page.
Proof.
  unfold pages_getitem, get_page_count. intros Hi.
  replace (i <? 0) with false by lia.
  replace ((0 <=? i) && (i <? Z.of_nat (length pages))) with true
    by (symmetry; apply andb_true_iff; lia).
  destruct (pages !! Z.to_nat i) as [page|] eqn:Hl; [by exists page|].
  apply lookup_ge_None in Hl. lia.
Qed.

(** Indices within the document never raise, and the pages are added in
    the order of the indices. *)
Lemma add_pages_at_in_range pages (idxs : list Z) w :
  Forall (λ i, 0 ≤ i < get_page_count pages) idxs →
  ∃ added,
    add_pages_at pages idxs w = Ok (mkWriter (w_pages w ++ added) (w_encrypt w))
    ∧ Forall2 (λ i page, pages !! Z.to_nat i = Some page) idxs added.
Proof.
  revert w. induction idxs as [|i idxs IH]; intros w Hall; simpl.
  - exists []. rewrite app_nil_r. by destruct w.
  - apply Forall_cons in Hall as [Hi Hall].
    destruct (pages_getitem_in_range pages i Hi) as (page & -> & Hpage); simpl.
    destruct (IH (add_page w page) Hall) as (added & -> & Hadded).
    exists (page :: added). simpl. rewrite <- app_assoc. split; [done|].
    by constructor.
Qed.

Lemma rotate_loop_spec (i : Z) (pages : list Page) (rotate_map : gmap Z Z)
    (w : PdfWriter Page) :
  rotate_loop page_rotate i pages rotate_map w
  = mkWriter
      (w_pages w ++
       imap (λ k page, rotate_one page_rotate rotate_map (i + Z.of_nat k) page)
            pages)
      (w_encrypt w).
Proof.
  revert i w. induction pages as [|page pages IH]; intros i w; simpl.
  - rewrite app_nil_r. by destruct w.
  - rewrite IH. simpl. rewrite <- app_assoc. simpl.
    rewrite Z.add_0_r. do 3 f_equal.
    apply imap_ext. intros k x _. simpl. f_equal. lia.
Qed.

Lemma rotate_pages_lookup (pages : list Page) (rotate_map : gmap Z Z) (k : nat) :
  w_pages (rotate_pages page_rotate pages rotate_map) !! k
  = rotate_one page_rotate rotate_map (Z.of_nat k) <$> pages !! k.
Proof.
  unfold rotate_pages. rewrite rotate_loop_spec. simpl.
  by rewrite list_lookup_imap.
Qed.

Lemma encrypt_pdf_spec (b : list Page) user_pwd owner_pwd allow_print allow_copy :
  encrypt_pdf b user_pwd owner_pwd allow_print allow_copy
  = mkWriter b (Some (user_pwd, or_else owner_pwd user_pwd)).
Proof. unfold encrypt_pdf, encrypt. by rewrite add_all_pages_spec. Qed.

End Writers.

(** ** C1: the output of [parse_page_ranges] *)

Lemma page_ranges_token_bounds tok max_page pages pages' :
  page_ranges_token tok max_page pages = Ok pages' →
  in_bounds max_page pages → in_bounds max_page pages'.
Proof.
  unfold page_ranges_token. intros Htok Hb.
  destruct (Py.contains_hyphen tok).
  - destruct (Py.split_hyphen_1 tok) as [|a [|b [|? ?]]]; try discriminate.
    destruct (Py.int a) as [start|]; [|discriminate].
    destruct (Py.int b) as [end_|]; [|discriminate].
    destruct (_ || _) eqn:Hc; [discriminate|].
    injection Htok as <-.
    repeat (apply orb_false_iff in Hc as [Hc ?]).
    intros x [Hx|Hx]%elem_of_add_all; [|by apply Hb].
    apply elem_of_range in Hx. lia.
  - destruct (Py.int tok) as [p|]; [|discriminate].
    destruct (_ || _) eqn:Hc; [discriminate|].
    injection Htok as <-.
    apply orb_false_iff in Hc as [? ?].
    intros x [->%elem_of_singleton|Hx]%elem_of_union; [lia|by apply Hb].
Qed.

Lemma page_ranges_loop_bounds tokens max_page pages pages' :
  page_ranges_loop tokens max_page pages = Ok pages' →
  in_bounds max_page pages → in_bounds max_page pages'.
Proof.
  revert pages. induction tokens as [|tok rest IH]; intros pages; simpl.
  - by intros [= <-].
  - destruct (Py.is_empty tok); [apply IH|].
    destruct (page_ranges_token tok max_page pages) as [p1|e] eqn:Ht;
      [|discriminate]; simpl.
    intros Hl Hb. eapply IH; [done|]. by eapply page_ranges_token_bounds.
Qed.

(** C1. Whenever [parse_page_ranges] accepts a selection string, the list
    it returns is strictly ascending, has no duplicates, and all its elements
    lie in [[0, max_page)]. This holds for every [max_page], so in particular
    for [max_page >= 0]. *)
Theorem parse_page_ranges_ascending_in_bounds
    (ranges_str : string) (max_page : Z) (idxs : list Z) :
  parse_page_ranges ranges_str max_page = Ok idxs →
  StronglySorted Z.lt idxs ∧ NoDup idxs ∧
  Forall (λ i, 0 ≤ i < max_page) idxs.
Proof.
  unfold parse_page_ranges.
  destruct (Py.is_empty (Py.strip ranges_str)).
  - intros [= <-]. repeat split; constructor.
  - destruct (page_ranges_loop _ _ _) as [pages|e] eqn:Hl; [|discriminate].
    simpl. intros [= <-].
    pose proof (sorted_strictly_ascending pages) as Hs.
    split; [done|]. split.
    + unfold Py.sorted. rewrite merge_sort_Permutation. apply NoDup_elements.
    + apply Forall_forall. intros x Hx%elem_of_sorted.
      eapply page_ranges_loop_bounds; [done| |done].
      intros y Hy. set_solver.
Qed.

Lemma parse_page_ranges_ascending_in_bounds_witness :
  parse_page_ranges "3 1-2,2" 4 = Ok [0; 1; 2] ∧
  (StronglySorted Z.lt [0; 1; 2] ∧ NoDup [0; 1; 2] ∧
   Forall (λ i, 0 ≤ i < 4) [0; 1; 2]).
Proof.
  split; [vm_compute; reflexivity|].
  apply (parse_page_ranges_ascending_in_bounds "3 1-2,2" 4 [0; 1; 2]).
  vm_compute; reflexivity.
Defined.

(** ** C2: the worked example of set mode *)

(** C2, as the code computes it. ["1-3"] gives pages 1, 2, 3, ["5"] gives
    page 5 and ["7-9"] gives pages 7, 8, 9: page 4 is not selected, so the
    0-based result is [[0,1,2,4,6,7,8]] and has no 3 in it. *)
Theorem parse_page_ranges_example :
  parse_page_ranges "1-3,5,7-9" 9 = Ok [0; 1; 2; 4; 6; 7; 8].
Proof. vm_compute. reflexivity. Qed.

(** The list of the claim, with index 3 (page 4), is not what is returned. *)
Lemma parse_page_ranges_example_not_claimed :
  parse_page_ranges "1-3,5,7-9" 9 ≠ Ok [0; 1; 2; 3; 4; 6; 7; 8].
Proof. vm_compute. discriminate. Qed.

(** ** C3: descending ranges and token order in [parse_reorder] *)

Lemma reorder_token_acc tok max_page seq :
  reorder_token tok max_page seq =
  (part ← reorder_token tok max_page []; Ok (seq ++ part)).
Proof.
  unfold reorder_token.
  destruct (Py.contains_hyphen tok).
  - destruct (Py.split_hyphen_1 tok) as [|a [|b [|? ?]]]; try done.
    destruct (Py.int a), (Py.int b); try done.
    destruct (_ || _); [done|]. by destruct (_ <=? _).
  - destruct (Py.int tok); [|done]. by destruct (_ || _).
Qed.

Lemma reorder_loop_acc tokens max_page seq :
  reorder_loop tokens max_page seq =
  (rest ← reorder_loop tokens max_page []; Ok (seq ++ rest)).
Proof.
  revert seq. induction tokens as [|tok tokens IH]; intros seq; simpl.
  - by rewrite app_nil_r.
  - destruct (Py.is_empty tok); [apply IH|].
    rewrite reorder_token_acc.
    destruct (reorder_token tok max_page []) as [part|e]; [|done]; simpl.
    rewrite IH, (IH part).
    destruct (reorder_loop tokens max_page []) as [rest|e]; [|done]; simpl.
    by rewrite app_assoc.
Qed.

Lemma reorder_loop_concat tokens max_page parts :
  Forall2 (λ tok part, reorder_token tok max_page [] = Ok part)
          (filter nonempty tokens) parts →
  reorder_loop tokens max_page [] = Ok (concat parts).
Proof.
  revert parts. induction tokens as [|tok tokens IH]; intros parts; simpl.
  - intros ->%Forall2_nil_inv_l. done.
  - rewrite filter_cons. destruct (decide (nonempty tok)) as [Hne|He].
    + rewrite Hne.
      intros (part & parts' & Hpart & Hparts & ->)%Forall2_cons_inv_l.
      rewrite Hpart. simpl. rewrite reorder_loop_acc, (IH parts' Hparts).
      done.
    + apply not_false_is_true in He. rewrite He. apply IH.
Qed.

(** C3. In [parse_reorder] a range token [A-B] with [A > B], both within
    [[1, max_page]], is accepted and appends [A-1, A-2, ..., B-1], the
    ascending expansion of [B-A] read backwards. The result for a string is
    the concatenation of what each of its non-empty tokens expands to, in
    token order, nothing being removed. The two worked examples hold. *)
Theorem parse_reorder_descending_in_order :
  (∀ tok a b start end_ max_page seq,
     Py.contains_hyphen tok = true → Py.split_hyphen_1 tok = [a; b] →
     Py.int a = Some start → Py.int b = Some end_ →
     1 ≤ end_ → end_ < start → start ≤ max_page →
     reorder_token tok max_page seq
       = Ok (seq ++ rev (Py.range (end_ - 1) start))) ∧
  (∀ ranges_str max_page parts,
     Forall2 (λ tok part, reorder_token tok max_page [] = Ok part)
             (filter nonempty (Py.re_split_seps (Py.strip ranges_str)))
             parts →
     parse_reorder ranges_str max_page = Ok (concat parts)) ∧
  parse_reorder "10-7" 10 = Ok [9; 8; 7; 6] ∧
  parse_reorder "1-3,5-4" 5 = Ok [0; 1; 2; 4; 3].
Proof.
  split; [|split; [|split; vm_compute; reflexivity]].
  - intros tok a b start end_ max_page seq Hh Hs Ha Hb H1 H2 H3.
    unfold reorder_token. rewrite Hh, Hs, Ha, Hb.
    replace (_ || _) with false
      by (symmetry; repeat (apply orb_false_iff; split); lia).
    replace (start <=? end_) with false by lia.
    rewrite <- range_down_rev. do 3 f_equal. lia.
  - intros ranges_str max_page parts Hparts. unfold parse_reorder.
    destruct (Py.is_empty (Py.strip ranges_str)) eqn:He.
    + destruct (Py.strip ranges_str); [|done].
      by apply Forall2_nil_inv_l in Hparts as ->.
    + by apply reorder_loop_concat.
Qed.

Lemma parse_reorder_descending_in_order_witness :
  reorder_token "10-7" 10 [4] = Ok ([4] ++ rev (Py.range (7 - 1) 10)) ∧
  parse_reorder " 3-1,,2 2" 3 = Ok (concat [[2; 1; 0]; [1]; [1]]).
Proof.
  destruct parse_reorder_descending_in_order as (Hdesc & Hstr & _).
  split.
  - apply (Hdesc "10-7" "10" "7" 10 7 10 [4]);
      first [reflexivity | lia].
  - apply (Hstr " 3-1,,2 2" 3 [[2; 1; 0]; [1]; [1]]).
    repeat constructor.
Defined.

(** ** C4: the errors of [parse_page_ranges] *)

(** C4, as the code does it. A range token whose ends are integers fails
    with the one error "out of page range or invalid", carrying the token,
    when an end lies outside [[1, max_page]] and also when the range is
    descending. A single page outside [[1, max_page]] fails with the error
    "page out of range", carrying the number that was read. *)
Theorem parse_page_ranges_errors :
  (∀ tok a b start end_ max_page pages,
     Py.contains_hyphen tok = true → Py.split_hyphen_1 tok = [a; b] →
     Py.int a = Some start → Py.int b = Some end_ →
     start < 1 ∨ end_ < 1 ∨ max_page < start ∨ max_page < end_
       ∨ end_ < start →
     page_ranges_token tok max_page pages = Raise (RangeOutOrInvalid tok)) ∧
  (∀ tok p max_page pages,
     Py.contains_hyphen tok = false → Py.int tok = Some p →
     p < 1 ∨ max_page < p →
     page_ranges_token tok max_page pages = Raise (PageOutOfRange p)) ∧
  parse_page_ranges "5-3" 9 = Raise (RangeOutOrInvalid "5-3") ∧
  parse_page_ranges "6-7" 5 = Raise (RangeOutOrInvalid "6-7") ∧
  parse_page_ranges "0" 5 = Raise (PageOutOfRange 0) ∧
  parse_page_ranges "6" 5 = Raise (PageOutOfRange 6) ∧
  parse_page_ranges "+6" 5 = Raise (PageOutOfRange 6).
Proof.
  split; [|split; [|repeat split; vm_compute; reflexivity]].
  - intros tok a b start end_ max_page pages Hh Hs Ha Hb Hbad.
    unfold page_ranges_token. rewrite Hh, Hs, Ha, Hb.
    replace (_ || _) with true; [done|].
    symmetry. rewrite !orb_true_iff. lia.
  - intros tok p max_page pages Hh Hp Hbad.
    unfold page_ranges_token. rewrite Hh, Hp.
    replace (_ || _) with true; [done|].
    symmetry. rewrite !orb_true_iff. lia.
Qed.

Lemma parse_page_ranges_errors_witness :
  page_ranges_token "5-3" 9 ∅ = Raise (RangeOutOrInvalid "5-3") ∧
  page_ranges_token "6" 5 ∅ = Raise (PageOutOfRange 6).
Proof.
  destruct parse_page_ranges_errors as (Hrange & Hpage & _).
  split.
  - apply (Hrange "5-3" "5" "3" 5 3 9 ∅); first [reflexivity | lia].
  - apply (Hpage "6" 6 5 ∅); first [reflexivity | lia].
Defined.

(** A descending range and a range that is out of the page range fail with
    errors of the same kind: no separate kind tells the two apart. *)
Lemma descending_range_kind_not_distinct :
  ¬ (∃ e1 e2,
       parse_page_ranges "5-3" 9 = Raise e1 ∧
       parse_page_ranges "6-7" 5 = Raise e2 ∧
       error_kind e1 ≠ error_kind e2).
Proof.
  intros (e1 & e2 & H1 & H2 & Hne).
  vm_compute in H1, H2.
  injection H1 as <-. injection H2 as <-. by apply Hne.
Qed.

(** ** C5: the plan of the reorder/delete tab *)

Section ReorderDelete.
Context {Page : Type}.

Lemma reorder_del_set_ok (n2 : Z) (del_str : string) (D : list Z) :
  parse_page_ranges del_str n2 = Ok D →
  reorder_del_set (Page:=Page) n2 del_str = (list_to_set D, []).
Proof.
  intros HD. unfold reorder_del_set.
  destruct (Py.is_empty (Py.strip del_str)) eqn:He.
  - unfold parse_page_ranges in HD. rewrite He in HD. by injection HD as <-.
  - by rewrite parse_page_ranges_replace, HD.
Qed.

(** C5. With a delete list that parses to [D] and an order string that
    parses to [S], [final_idxs] is [S] filtered to the indices of
    [{0..n2-1}] that are not in [D], and no error is shown: entries of the
    order that name deleted pages are just left out. With an empty order
    string, [final_idxs] is the delete-complement in ascending order. For 5
    pages, delete "2" and order "1-5" the plan is [[0,2,3,4]], and those
    pages are what the button exports. *)
Theorem reorder_delete_plan :
  (∀ (n2 : Z) (del_str order_str : string) (D S : list Z),
     parse_page_ranges del_str n2 = Ok D →
     parse_reorder order_str n2 = Ok S →
     Py.is_empty (Py.strip order_str) = false →
     reorder_del_set (Page:=Page) n2 del_str = (list_to_set D, []) ∧
     reorder_final_idxs (Page:=Page) n2 (list_to_set D) order_str
       = (filter (λ i, 0 ≤ i < n2 ∧ i ∉ D) S, [])) ∧
  (∀ (n2 : Z) (del_str order_str : string) (D : list Z),
     parse_page_ranges del_str n2 = Ok D →
     Py.is_empty (Py.strip order_str) = true →
     reorder_del_set (Page:=Page) n2 del_str = (list_to_set D, []) ∧
     reorder_final_idxs (Page:=Page) n2 (list_to_set D) order_str
       = (filter (λ i, i ∉ D) (Py.range 0 n2), []) ∧
     StronglySorted Z.lt (filter (λ i, i ∉ D) (Py.range 0 n2))) ∧
  (reorder_del_set (Page:=Page) 5 "2" = ({[1]}, []) ∧
   reorder_final_idxs (Page:=Page) 5 {[1]} "1-5" = ([0; 2; 3; 4], []) ∧
   ∀ p1 p2 p3 p4 p5 : Page,
     reorder_button [p1; p2; p3; p4; p5] "2" "1-5"
       = [DownloadButton (mkWriter [p1; p3; p4; p5] None)]).
Proof.
  split; [|split].
  - intros n2 del_str order_str D S HD HS Hne.
    split; [by apply reorder_del_set_ok|].
    unfold reorder_final_idxs. rewrite Hne, HS. simpl. f_equal.
    apply list_filter_iff. intros i.
    rewrite elem_of_not_in_set, elem_of_list_to_set. done.
  - intros n2 del_str order_str D HD He.
    split; [by apply reorder_del_set_ok|].
    unfold reorder_final_idxs. rewrite He.
    assert (not_in_set n2 (list_to_set D) = filter (λ i, i ∉ D) (Py.range 0 n2))
      as Heq.
    { apply list_filter_iff. intros i. by rewrite elem_of_list_to_set. }
    rewrite Heq. split; [done|].
    apply StronglySorted_filter, range_ascending.
  - split; [|split]; [vm_compute; reflexivity..|].
    intros. vm_compute. reflexivity.
Qed.

End ReorderDelete.

Lemma reorder_delete_plan_witness :
  reorder_final_idxs (Page:=nat) 5 (list_to_set [1]) "1-5"
    = (filter (λ i, 0 ≤ i < 5 ∧ i ∉ [1]) [0; 1; 2; 3; 4], []) ∧
  reorder_final_idxs (Page:=nat) 5 (list_to_set [1]) " "
    = (filter (λ i, i ∉ [1]) (Py.range 0 5), []).
Proof.
  destruct (reorder_delete_plan (Page:=nat)) as (Horder & Hempty & _).
  split.
  - apply (Horder 5 "2" "1-5" [1] [0; 1; 2; 3; 4]); vm_compute; reflexivity.
  - apply (Hempty 5 "2" " " [1]); vm_compute; reflexivity.
Defined.

(** ** C6: what a handler does with a parse error *)

Section ParseErrors.
Context {Page : Type}.
Variable page_rotate : Z → Page → Page.


Lemma parse_reorder_raise_nonempty s max_page e :
  parse_reorder s max_page = Raise e → Py.is_empty (Py.strip s) = false.
Proof.
  unfold parse_reorder. by destruct (Py.is_empty (Py.strip s)).
Qed.


End ParseErrors.



(** ** C7: an empty final plan *)

(** C7 at a document of one page with that page selected. The delete button
    checks that the selection is not empty, not that a page is left: it
    exports a document without pages. On the same input the reorder/delete
    tab, which checks its final plan, warns that nothing can be exported. *)
Theorem delete_button_exports_empty_document (Page : Type) (p q : Page) :
  delete_button [p] "1" = [DownloadButton (mkWriter [] None)] ∧
  delete_button [p; q] "1-2" = [DownloadButton (mkWriter [] None)] ∧
  reorder_button [p] "1" "" = [StWarning NothingToExport] ∧
  extract_button [p] "" = [StWarning NoRangeGiven].
Proof. repeat split; vm_compute; reflexivity. Qed.

(** ** C8: the passwords of the encrypt tab *)

Section Encrypt.
Context {Page : Type}.

(** C8. With an empty user password the encrypt button shows the error
    "set a user password" and exports nothing. With a user password and an
    empty owner password the exported document holds all pages and is
    encrypted with the user password as owner password; [encrypt_pdf] does
    the same for an owner password that is [None] or empty. An owner password
    that is given is used. *)
Theorem encrypt_passwords :
  (∀ (b4 : list Page) owner_pwd allow_print allow_copy,
     encrypt_button b4 "" owner_pwd allow_print allow_copy
       = [StError SetUserPassword]) ∧
  (∀ (b4 : list Page) user_pwd allow_print allow_copy,
     user_pwd ≠ "" →
     encrypt_button b4 user_pwd "" allow_print allow_copy
       = [DownloadButton (mkWriter b4 (Some (user_pwd, user_pwd)))]) ∧
  (∀ (b : list Page) user_pwd allow_print allow_copy,
     encrypt_pdf b user_pwd None allow_print allow_copy
       = mkWriter b (Some (user_pwd, user_pwd)) ∧
     encrypt_pdf b user_pwd (Some "") allow_print allow_copy
       = mkWriter b (Some (user_pwd, user_pwd))) ∧
  (∀ (b4 : list Page) user_pwd owner_pwd allow_print allow_copy,
     user_pwd ≠ "" → owner_pwd ≠ "" →
     encrypt_button b4 user_pwd owner_pwd allow_print allow_copy
       = [DownloadButton (mkWriter b4 (Some (user_pwd, owner_pwd)))]).
Proof.
  repeat split.
  - intros b4 user_pwd ap ac Hu. unfold encrypt_button.
    destruct user_pwd; [done|]. simpl. by rewrite encrypt_pdf_spec.
  - apply encrypt_pdf_spec.
  - apply encrypt_pdf_spec.
  - intros b4 user_pwd owner_pwd ap ac Hu Ho. unfold encrypt_button.
    destruct user_pwd; [done|]. destruct owner_pwd; [done|]. simpl.
    by rewrite encrypt_pdf_spec.
Qed.

End Encrypt.

Lemma encrypt_passwords_witness :
  encrypt_button [10; 20]%nat "u" "" true false
    = [DownloadButton (mkWriter [10; 20]%nat (Some ("u", "u")))] ∧
  encrypt_button [10; 20]%nat "u" "o" true false
    = [DownloadButton (mkWriter [10; 20]%nat (Some ("u", "o")))].
Proof.
  destruct (encrypt_passwords (Page:=nat)) as (_ & Hdefault & _ & Howner).
  split.
  - apply (Hdefault [10; 20]%nat "u" true false). discriminate.
  - apply (Howner [10; 20]%nat "u" "o" true false); discriminate.
Defined.

(** ** C9: [rotate_pages] *)

Section Rotate.
Context {Page : Type}.
Variable page_rotate : Z → Page → Page.

(** C9. [rotate_pages] never fails and puts every page of the source into
    the output, at its own position and in an unencrypted writer. The page
    at index [k] is rotated by the angle the map gives for [k] when that
    angle is 90, 180 or 270; it is passed on as it is when the map gives
    another angle, and when [k] is not in the map. *)
Theorem rotate_pages_frame (pages : list Page) (rotate_map : gmap Z Z) :
  let out := rotate_pages page_rotate pages rotate_map in
  w_encrypt out = None ∧
  length (w_pages out) = length pages ∧
  ∀ (k : nat) (page : Page), pages !! k = Some page →
    (∀ a, rotate_map !! Z.of_nat k = Some a → a ∈ [90; 180; 270] →
          w_pages out !! k = Some (page_rotate a page)) ∧
    (∀ a, rotate_map !! Z.of_nat k = Some a → a ∉ [90; 180; 270] →
          w_pages out !! k = Some page) ∧
    (rotate_map !! Z.of_nat k = None → w_pages out !! k = Some page).
Proof.
  simpl. split; [|split].
  - unfold rotate_pages. by rewrite rotate_loop_spec.
  - unfold rotate_pages. rewrite rotate_loop_spec. simpl.
    by rewrite length_imap.
  - intros k page Hk. rewrite rotate_pages_lookup, Hk. simpl.
    unfold rotate_one, angle_ok. repeat split.
    + intros a -> Ha. by rewrite bool_decide_eq_true_2.
    + intros a -> Ha. by rewrite bool_decide_eq_false_2.
    + by intros ->.
Qed.

End Rotate.

Lemma rotate_pages_frame_witness :
  let out := rotate_pages (λ a p, (p + a) `mod` 360) [0; 90; 0]
               (<[0 := 180]> (<[2 := 45]> ∅)) in
  w_pages out !! 0%nat = Some 180 ∧
  w_pages out !! 1%nat = Some 90 ∧
  w_pages out !! 2%nat = Some 0.
Proof.
  pose proof (rotate_pages_frame (λ a p, (p + a) `mod` 360) [0; 90; 0]
                (<[0 := 180]> (<[2 := 45]> ∅))) as (_ & _ & H).
  simpl. split; [|split].
  - destruct (H 0%nat 0 eq_refl) as (Hrot & _ & _).
    apply (Hrot 180); [vm_compute; reflexivity|].
    rewrite !elem_of_cons. lia.
  - destruct (H 1%nat 90 eq_refl) as (_ & _ & Hout).
    apply Hout. vm_compute; reflexivity.
  - destruct (H 2%nat 0 eq_refl) as (_ & Hbad & _).
    apply (Hbad 45); [vm_compute; reflexivity|].
    rewrite !elem_of_cons, elem_of_nil. lia.
Defined.

(** ** C10: [delete_pages] *)

Section Delete.
Context {Page : Type}.

(** C10. Two index lists with the same elements, in whatever order and
    however often, give the same result. [delete_pages] never raises: it
    returns the pages whose index is not in the list, each once, by strictly
    ascending index of the source document. *)
Theorem delete_pages_set_ascending :
  (∀ (pages : list Page) (l1 l2 : list Z),
     (∀ i, i ∈ l1 ↔ i ∈ l2) → delete_pages pages l1 = delete_pages pages l2) ∧
  (∀ (pages : list Page) (page_indices : list Z),
     ∃ (keep : list Z) (kept : list Page),
       delete_pages pages page_indices = Ok (mkWriter kept None) ∧
       StronglySorted Z.lt keep ∧
       (∀ i, i ∈ keep ↔ 0 ≤ i < get_page_count pages ∧ i ∉ page_indices) ∧
       Forall2 (λ i page, pages !! Z.to_nat i = Some page) keep kept).
Proof.
  split.
  - intros pages l1 l2 Heq. unfold delete_pages.
    assert (list_to_set l1 =@{gset Z} list_to_set l2) as ->; [|done].
    apply set_eq. intros i. by rewrite !elem_of_list_to_set.
  - intros pages page_indices. unfold delete_pages.
    set (keep := not_in_set _ _).
    destruct (add_pages_at_in_range pages keep new_writer
                (not_in_set_in_range _ _)) as (kept & Hok & Hkept).
    exists keep, kept. split; [done|]. split; [apply not_in_set_ascending|].
    split; [|done].
    intros i. unfold keep. by rewrite elem_of_not_in_set, elem_of_list_to_set.
Qed.

End Delete.

Lemma delete_pages_set_ascending_witness :
  delete_pages [10; 20; 30; 40]%nat [2; 0; 2]
  = delete_pages [10; 20; 30; 40]%nat [0; 2].
Proof.
  destruct (delete_pages_set_ascending (Page:=nat)) as [Hset _].
  apply (Hset [10; 20; 30; 40]%nat [2; 0; 2] [0; 2]).
  intros i. rewrite !elem_of_cons, !elem_of_nil. tauto.
Defined.

(** * Further properties of the parser *)

Lemma elem_of_range_down (x lo hi : Z) :
  x ∈ Py.range_down lo hi ↔ hi < x ≤ lo.
Proof.
  unfold Py.range_down. rewrite list_elem_of_fmap. split.
  - intros (k & -> & Hk). apply elem_of_seq in Hk. lia.
  - intros Hx. exists (Z.to_nat (lo - x)). split; [lia|].
    apply elem_of_seq. lia.
Qed.

Lemma add_all_union (ps : list Z) (pages : gset Z) :
  add_all ps pages = list_to_set ps ∪ pages.
Proof.
  apply set_eq. intros x.
  rewrite elem_of_add_all, elem_of_union, elem_of_list_to_set. done.
Qed.

Lemma list_to_set_sorted (pages : gset Z) :
  list_to_set (Py.sorted pages) = pages.
Proof.
  apply set_eq. intros x. by rewrite elem_of_list_to_set, elem_of_sorted.
Qed.

Lemma reorder_loop_filter tokens max_page seq :
  reorder_loop tokens max_page seq
  = reorder_loop (filter nonempty tokens) max_page seq.
Proof.
  revert seq. induction tokens as [|tok tokens IH]; intros seq; [done|].
  rewrite filter_cons. destruct (decide (nonempty tok)) as [Hne|He]; simpl.
  - rewrite Hne.
    destruct (reorder_token tok max_page seq); simpl; [apply IH|done].
  - apply not_false_is_true in He. rewrite He. apply IH.
Qed.

Lemma reorder_loop_nonempty_fields (s : string) (max_page : Z) :
  reorder_loop (filter nonempty (Py.re_split_seps (Py.strip s))) max_page []
  = reorder_loop (fields s) max_page [].
Proof.
  unfold Py.re_split_seps. rewrite filter_split_go by done.
  fold (fields (Py.strip s)). by rewrite fields_strip.
Qed.

(** [parse_reorder] is a function of the non-empty tokens alone. *)
Lemma parse_reorder_fields (s : string) (max_page : Z) :
  parse_reorder s max_page = reorder_loop (fields s) max_page [].
Proof.
  unfold parse_reorder.
  destruct (Py.is_empty (Py.strip s)) eqn:He.
  - by rewrite (fields_empty_strip s He).
  - by rewrite reorder_loop_filter, reorder_loop_nonempty_fields.
Qed.

(** ** Sequence mode stays within the document *)

Lemma reorder_token_bounds tok max_page seq seq' :
  reorder_token tok max_page seq = Ok seq' →
  Forall (λ i, 0 ≤ i < max_page) seq → Forall (λ i, 0 ≤ i < max_page) seq'.
Proof.
  unfold reorder_token. intros Htok Hb.
  destruct (Py.contains_hyphen tok).
  - destruct (Py.split_hyphen_1 tok) as [|a [|b [|? ?]]]; try discriminate.
    destruct (Py.int a) as [start|]; [|discriminate].
    destruct (Py.int b) as [end_|]; [|discriminate].
    destruct (_ || _) eqn:Hc; [discriminate|].
    repeat (apply orb_false_iff in Hc as [Hc ?]).
    destruct (start <=? end_); injection Htok as <-;
      apply Forall_app; (split; [done|]); apply Forall_forall; intros x Hx.
    + apply elem_of_range in Hx. lia.
    + apply elem_of_range_down in Hx. lia.
  - destruct (Py.int tok) as [p|]; [|discriminate].
    destruct (_ || _) eqn:Hc; [discriminate|].
    injection Htok as <-. apply orb_false_iff in Hc as [? ?].
    apply Forall_app. split; [done|]. repeat constructor; lia.
Qed.

Lemma reorder_loop_bounds tokens max_page seq seq' :
  reorder_loop tokens max_page seq = Ok seq' →
  Forall (λ i, 0 ≤ i < max_page) seq → Forall (λ i, 0 ≤ i < max_page) seq'.
Proof.
  revert seq. induction tokens as [|tok rest IH]; intros seq; simpl.
  - by intros [= <-].
  - destruct (Py.is_empty tok); [apply IH|].
    destruct (reorder_token tok max_page seq) as [s1|e] eqn:Ht;
      [|discriminate]; simpl.
    intros Hl Hb. eapply IH; [done|]. by eapply reorder_token_bounds.
Qed.

Lemma parse_reorder_in_range ranges_str max_page seq :
  parse_reorder ranges_str max_page = Ok seq →
  Forall (λ i, 0 ≤ i < max_page) seq.
Proof.
  unfold parse_reorder. destruct (Py.is_empty (Py.strip ranges_str)).
  - intros [= <-]. constructor.
  - intros Hl. by eapply reorder_loop_bounds.
Qed.

Lemma parse_page_ranges_in_range ranges_str max_page idxs :
  parse_page_ranges ranges_str max_page = Ok idxs →
  Forall (λ i, 0 ≤ i < max_page) idxs ∧ NoDup idxs.
Proof.
  unfold parse_page_ranges. destruct (Py.is_empty (Py.strip ranges_str)).
  - intros [= <-]. split; constructor.
  - destruct (page_ranges_loop _ _ _) as [pages|e] eqn:Hl; [|discriminate].
    simpl. intros [= <-]. split.
    + apply Forall_forall. intros x Hx%elem_of_sorted.
      eapply page_ranges_loop_bounds; [done| |done]. intros y Hy. set_solver.
    + unfold Py.sorted. rewrite merge_sort_Permutation. apply NoDup_elements.
Qed.

(** X1. Whatever [parse_reorder] accepts, every index of the sequence it
    returns lies in [[0, max_page)], descending ranges and repeats
    included. *)
Theorem parse_reorder_in_bounds (ranges_str : string) (max_page : Z)
    (seq : list Z) :
  parse_reorder ranges_str max_page = Ok seq →
  Forall (λ i, 0 ≤ i < max_page) seq.
Proof. apply parse_reorder_in_range. Qed.

Lemma parse_reorder_in_bounds_witness :
  parse_reorder "3-2 3,1" 3 = Ok [2; 1; 2; 0] ∧
  Forall (λ i, 0 ≤ i < 3) [2; 1; 2; 0].
Proof.
  split; [vm_compute; reflexivity|].
  apply (parse_reorder_in_bounds "3-2 3,1" 3 [2; 1; 2; 0]).
  vm_compute; reflexivity.
Defined.

(** ** Set mode against sequence mode *)

Lemma page_ranges_token_reorder tok max_page pages pages' :
  page_ranges_token tok max_page pages = Ok pages' →
  ∃ part, reorder_token tok max_page [] = Ok part ∧
          pages' = list_to_set part ∪ pages.
Proof.
  unfold page_ranges_token, reorder_token. intros Htok.
  destruct (Py.contains_hyphen tok).
  - destruct (Py.split_hyphen_1 tok) as [|a [|b [|? ?]]]; try discriminate.
    destruct (Py.int a) as [start|]; [|discriminate].
    destruct (Py.int b) as [end_|]; [|discriminate].
    destruct (_ || _ || _ || _ || _) eqn:Hc; [discriminate|].
    injection Htok as <-.
    apply orb_false_iff in Hc as [Hc Hdesc]. rewrite Hc.
    replace (start <=? end_) with true by lia.
    eexists. split; [done|]. apply add_all_union.
  - destruct (Py.int tok) as [p|]; [|discriminate].
    destruct (_ || _) eqn:Hc; [discriminate|].
    injection Htok as <-. eexists. split; [done|].
    apply set_eq. intros x. simpl.
    rewrite !elem_of_union, elem_of_empty. tauto.
Qed.

Lemma page_ranges_loop_reorder tokens max_page pages pages' :
  page_ranges_loop tokens max_page pages = Ok pages' →
  ∃ seq, reorder_loop tokens max_page [] = Ok seq ∧
         pages' = list_to_set seq ∪ pages.
Proof.
  revert pages. induction tokens as [|tok rest IH]; intros pages; simpl.
  - intros [= <-]. exists []. split; [done|].
    apply set_eq. intros x. rewrite elem_of_union, elem_of_list_to_set.
    rewrite elem_of_nil. tauto.
  - destruct (Py.is_empty tok); [apply IH|].
    destruct (page_ranges_token tok max_page pages) as [p1|e] eqn:Ht;
      [|discriminate]; simpl.
    destruct (page_ranges_token_reorder _ _ _ _ Ht) as (part & -> & ->).
    intros (seq & Hseq & ->)%IH. simpl.
    rewrite reorder_loop_acc, Hseq. simpl. eexists. split; [done|].
    apply set_eq. intros x.
    rewrite !elem_of_union, !elem_of_list_to_set, elem_of_app. tauto.
Qed.

(** X2. What set mode accepts, sequence mode accepts too, and the result
    of set mode is the result of sequence mode with the duplicates removed
    and sorted: the two modes select the same pages. *)
Theorem parse_page_ranges_sorted_set_of_reorder
    (ranges_str : string) (max_page : Z) (idxs : list Z) :
  parse_page_ranges ranges_str max_page = Ok idxs →
  ∃ seq, parse_reorder ranges_str max_page = Ok seq ∧
         idxs = Py.sorted (list_to_set seq) ∧
         ∀ i, i ∈ idxs ↔ i ∈ seq.
Proof.
  unfold parse_page_ranges, parse_reorder.
  destruct (Py.is_empty (Py.strip ranges_str)).
  - intros [= <-]. exists []. repeat split; try done.
  - destruct (page_ranges_loop _ _ _) as [pages|e] eqn:Hl; [|discriminate].
    simpl. intros [= <-].
    destruct (page_ranges_loop_reorder _ _ _ _ Hl) as (seq & Hseq & ->).
    exists seq. split; [done|].
    assert (list_to_set seq ∪ ∅ =@{gset Z} list_to_set seq) as ->.
    { apply set_eq. intros x. rewrite elem_of_union, elem_of_empty. tauto. }
    split; [done|]. intros i. by rewrite elem_of_sorted, elem_of_list_to_set.
Qed.

Lemma parse_page_ranges_sorted_set_of_reorder_witness :
  ∃ seq, parse_reorder "3,1-2 2" 3 = Ok seq ∧
         [0; 1; 2] = Py.sorted (list_to_set seq) ∧
         ∀ i, i ∈ [0; 1; 2] ↔ i ∈ seq.
Proof.
  apply (parse_page_ranges_sorted_set_of_reorder "3,1-2 2" 3 [0; 1; 2]).
  vm_compute; reflexivity.
Defined.

(** ** Separators *)

Lemma fields_all_seps (s : string) : all_seps s = true → fields s = [].
Proof.
  unfold fields. induction s as [|c s IH]; simpl; [done|].
  intros [-> Hs]%andb_true_iff. by apply IH.
Qed.

(** X3. A comma and a space separate tokens alike: turning every comma of
    a selection string into a space changes the result of neither parser,
    errors included. *)
Theorem comma_or_space_alike (ranges_str : string) (max_page : Z) :
  parse_page_ranges (Py.replace_comma_space ranges_str) max_page
    = parse_page_ranges ranges_str max_page ∧
  parse_reorder (Py.replace_comma_space ranges_str) max_page
    = parse_reorder ranges_str max_page.
Proof.
  split; [apply parse_page_ranges_replace|].
  rewrite !parse_reorder_fields. unfold fields. by rewrite fields_go_replace.
Qed.

(** X4. A selection string made of separators only, the empty string
    included, is accepted by both parsers and selects nothing. *)
Theorem separators_only_select_nothing (ranges_str : string) (max_page : Z) :
  all_seps ranges_str = true →
  parse_page_ranges ranges_str max_page = Ok [] ∧
  parse_reorder ranges_str max_page = Ok [].
Proof.
  intros Hs. rewrite parse_page_ranges_fields, parse_reorder_fields.
  rewrite (fields_all_seps _ Hs). simpl. split; [|done].
  unfold Py.sorted. by rewrite elements_empty.
Qed.

Lemma separators_only_select_nothing_witness :
  parse_page_ranges " ,, , " 4 = Ok [] ∧ parse_reorder " ,, , " 4 = Ok [].
Proof.
  apply (separators_only_select_nothing " ,, , " 4). reflexivity.
Defined.

(** ** Errors name a token *)







(** ** Joining two selection strings *)

Lemma fields_go_app_sep (cur s1 s2 : string) (sep : ascii) :
  Py.is_sep sep = true →
  fields_go cur (s1 ++ String sep s2)%string = fields_go cur s1 ++ fields s2.
Proof.
  intros Hsep. revert cur. induction s1 as [|c s1 IH]; intros cur; simpl.
  - rewrite Hsep. by destruct (Py.is_empty cur).
  - destruct (Py.is_sep c); [|apply IH].
    destruct (Py.is_empty cur); rewrite IH; done.
Qed.

Lemma reorder_loop_app tokens1 tokens2 max_page seq :
  reorder_loop (tokens1 ++ tokens2) max_page seq
  = (seq' ← reorder_loop tokens1 max_page seq;
     reorder_loop tokens2 max_page seq').
Proof.
  revert seq. induction tokens1 as [|tok rest IH]; intros seq; simpl; [done|].
  destruct (Py.is_empty tok); [apply IH|].
  destruct (reorder_token tok max_page seq); simpl; [apply IH|done].
Qed.

Lemma page_ranges_loop_app tokens1 tokens2 max_page pages :
  page_ranges_loop (tokens1 ++ tokens2) max_page pages
  = (pages' ← page_ranges_loop tokens1 max_page pages;
     page_ranges_loop tokens2 max_page pages').
Proof.
  revert pages. induction tokens1 as [|tok rest IH]; intros pages; simpl;
    [done|].
  destruct (Py.is_empty tok); [apply IH|].
  destruct (page_ranges_token tok max_page pages); simpl; [apply IH|done].
Qed.

Lemma page_ranges_token_acc tok max_page pages :
  page_ranges_token tok max_page pages
  = (new ← page_ranges_token tok max_page ∅; Ok (new ∪ pages)).
Proof.
  unfold page_ranges_token.
  destruct (Py.contains_hyphen tok).
  - destruct (Py.split_hyphen_1 tok) as [|a [|b [|? ?]]]; try done.
    destruct (Py.int a), (Py.int b); try done.
    destruct (_ || _); [done|]. simpl. f_equal.
    rewrite !add_all_union. apply set_eq. intros x.
    rewrite !elem_of_union, elem_of_empty. tauto.
  - destruct (Py.int tok); [|done]. destruct (_ || _); [done|]. simpl.
    f_equal. apply set_eq. intros x.
    rewrite !elem_of_union, elem_of_empty. tauto.
Qed.

Lemma page_ranges_loop_acc tokens max_page pages :
  page_ranges_loop tokens max_page pages
  = (new ← page_ranges_loop tokens max_page ∅; Ok (new ∪ pages)).
Proof.
  revert pages. induction tokens as [|tok rest IH]; intros pages; simpl.
  - f_equal. apply set_eq. intros x. rewrite elem_of_union, elem_of_empty.
    tauto.
  - destruct (Py.is_empty tok); [apply IH|].
    rewrite page_ranges_token_acc.
    destruct (page_ranges_token tok max_page ∅) as [p1|e]; [|done]; simpl.
    rewrite IH, (IH p1).
    destruct (page_ranges_loop rest max_page ∅) as [p2|e]; [|done]; simpl.
    f_equal. apply set_eq. intros x. rewrite !elem_of_union. tauto.
Qed.

(** X6. Two selection strings joined by a separator are parsed as the
    first followed by the second. In sequence mode the result is the first
    result followed by the second; in set mode it is the sorted union. An
    error of the first string comes before an error of the second. *)
Theorem parse_joined_selections (s1 s2 : string) (sep : ascii)
    (max_page : Z) :
  Py.is_sep sep = true →
  parse_reorder (s1 ++ String sep s2)%string max_page
    = (seq1 ← parse_reorder s1 max_page;
       seq2 ← parse_reorder s2 max_page;
       Ok (seq1 ++ seq2)) ∧
  parse_page_ranges (s1 ++ String sep s2)%string max_page
    = (idxs1 ← parse_page_ranges s1 max_page;
       idxs2 ← parse_page_ranges s2 max_page;
       Ok (Py.sorted (list_to_set idxs1 ∪ list_to_set idxs2))).
Proof.
  intros Hsep. split.
  - rewrite !parse_reorder_fields. unfold fields at 1.
    rewrite (fields_go_app_sep _ _ _ _ Hsep), reorder_loop_app.
    fold (fields s1).
    destruct (reorder_loop (fields s1) max_page []) as [seq1|e];
      [|done]; simpl.
    apply reorder_loop_acc.
  - rewrite !parse_page_ranges_fields. unfold fields at 1.
    rewrite (fields_go_app_sep _ _ _ _ Hsep), page_ranges_loop_app.
    fold (fields s1).
    destruct (page_ranges_loop (fields s1) max_page ∅) as [p1|e];
      [|done]; simpl.
    rewrite page_ranges_loop_acc.
    destruct (page_ranges_loop (fields s2) max_page ∅) as [p2|e];
      [|done]; simpl.
    rewrite !list_to_set_sorted. do 2 f_equal.
    apply set_eq. intros x. rewrite !elem_of_union. tauto.
Qed.

Lemma parse_joined_selections_witness :
  parse_reorder ("2-1" ++ String " " "2")%string 2
    = (seq1 ← parse_reorder "2-1" 2; seq2 ← parse_reorder "2" 2;
       Ok (seq1 ++ seq2)) ∧
  parse_page_ranges ("2-1" ++ String " " "2")%string 2
    = (idxs1 ← parse_page_ranges "2-1" 2; idxs2 ← parse_page_ranges "2" 2;
       Ok (Py.sorted (list_to_set idxs1 ∪ list_to_set idxs2))).
Proof.
  apply (parse_joined_selections "2-1" "2" " " 2). reflexivity.
Defined.

(** * Further properties of page assembly *)

Lemma Forall2_Permutation_l {A B} (R : A → B → Prop) (l l' : list A)
    (k : list B) :
  l ≡ₚ l' → Forall2 R l k → ∃ k', k ≡ₚ k' ∧ Forall2 R l' k'.
Proof.
  intros Hp. revert k.
  induction Hp as [|x l l' _ IH|x y l|l1 l2 l3 _ IH1 _ IH2]; intros k Hk.
  - apply Forall2_nil_inv_l in Hk as ->. by exists [].
  - apply Forall2_cons_inv_l in Hk as (b & k1 & Hb & Hk1 & ->).
    destruct (IH k1 Hk1) as (k1' & Hp1 & Hk1').
    exists (b :: k1'). split; [by constructor|by constructor].
  - apply Forall2_cons_inv_l in Hk as (b1 & k1 & Hb1 & Hk1 & ->).
    apply Forall2_cons_inv_l in Hk1 as (b2 & k2 & Hb2 & Hk2 & ->).
    exists (b2 :: b1 :: k2). split; [apply perm_swap|by repeat constructor].
  - destruct (IH1 k Hk) as (k2 & Hp2 & Hk2).
    destruct (IH2 k2 Hk2) as (k3 & Hp3 & Hk3).
    exists k3. split; [by etrans|done].
Qed.

Lemma range_NoDup (lo hi : Z) : NoDup (Py.range lo hi).
Proof.
  unfold Py.range. apply NoDup_fmap_2_strong; [|apply NoDup_seq].
  intros x y _ _ Heq. lia.
Qed.

Lemma range_lookup (lo hi : Z) (k : nat) :
  Z.of_nat k < hi - lo → Py.range lo hi !! k = Some (lo + Z.of_nat k).
Proof.
  intros Hk. unfold Py.range. rewrite list_lookup_fmap.
  rewrite lookup_seq_lt by lia. done.
Qed.

Lemma range_length (lo hi : Z) : length (Py.range lo hi) = Z.to_nat (hi - lo).
Proof. unfold Py.range. by rewrite length_fmap, length_seq. Qed.

Section Composition.
Context {Page : Type}.
Implicit Types (b pages : list Page).

Lemma at_index_range pages :
  Forall2 (λ (i : Z) page, pages !! Z.to_nat i = Some page) (Py.range 0 (get_page_count pages)) pages.
Proof.
  apply Forall2_same_length_lookup_2.
  - rewrite range_length. unfold get_page_count. lia.
  - intros k i page Hi Hpage.
    apply lookup_lt_Some in Hpage as Hlt.
    rewrite range_lookup in Hi by (unfold get_page_count; lia).
    injection Hi as <-. by rewrite Z.add_0_l, Nat2Z.id.
Qed.

Lemma at_index_Permutation pages (idxs : list Z) (added : list Page) :
  idxs ≡ₚ Py.range 0 (get_page_count pages) →
  Forall2 (λ (i : Z) page, pages !! Z.to_nat i = Some page) idxs added → added ≡ₚ pages.
Proof.
  intros Hp Hadded.
  destruct (Forall2_Permutation_l _ _ _ _ Hp Hadded) as (k' & Hk & Hk').
  assert (k' = pages) as <-; [|done].
  eapply Forall2_unique; [exact Hk'|apply at_index_range|].
  intros i p1 p2 H1 H2. simpl in *. congruence.
Qed.

(** X7. When the selection parses to a non-empty list, the extract button
    exports exactly the pages at the selected indices, in ascending order,
    each once, in an unencrypted document. It never fails on a page
    index. *)
Theorem extract_button_exports_selection b (ranges_str : string)
    (idxs : list Z) :
  parse_page_ranges ranges_str (get_page_count b) = Ok idxs →
  idxs ≠ [] →
  ∃ added,
    extract_button b ranges_str = [DownloadButton (mkWriter added None)] ∧
    Forall2 (λ (i : Z) page, b !! Z.to_nat i = Some page) idxs added.
Proof.
  intros Hparse Hne. unfold extract_button, extract_pages. rewrite Hparse.
  simpl. destruct idxs as [|i idxs]; [done|].
  destruct (parse_page_ranges_in_range _ _ _ Hparse) as [Hin _].
  destruct (add_pages_at_in_range b (i :: idxs) new_writer Hin)
    as (added & -> & Hadded).
  by exists added.
Qed.

(** X8. For a selection that parses, the pages kept by [delete_pages] and
    the pages taken by [extract_pages] are together the pages of the
    document, each once: delete removes exactly the selected pages, and the
    page count drops by the number of selected indices. *)
Theorem extract_delete_partition b (ranges_str : string) (idxs : list Z) :
  parse_page_ranges ranges_str (get_page_count b) = Ok idxs →
  ∃ taken kept,
    extract_pages b idxs = Ok (mkWriter taken None) ∧
    delete_pages b idxs = Ok (mkWriter kept None) ∧
    taken ++ kept ≡ₚ b ∧
    (length kept + length idxs = length b)%nat.
Proof.
  intros Hparse.
  destruct (parse_page_ranges_in_range _ _ _ Hparse) as [Hin Hnd].
  unfold extract_pages, delete_pages.
  set (n := get_page_count b). set (sel := list_to_set idxs : gset Z).
  destruct (add_pages_at_in_range b idxs new_writer Hin)
    as (taken & -> & Htaken).
  destruct (add_pages_at_in_range b (not_in_set n sel) new_writer
              (not_in_set_in_range _ _)) as (kept & -> & Hkept).
  exists taken, kept. split; [done|]. split; [done|].
  assert (idxs ≡ₚ filter (λ i, i ∈ sel) (Py.range 0 n)) as Hsel.
  { apply NoDup_Permutation; [done|apply NoDup_filter, range_NoDup|].
    intros i. rewrite list_elem_of_filter, elem_of_range.
    unfold sel. rewrite elem_of_list_to_set. split; [|tauto].
    intros Hi. split; [done|]. by apply (proj1 (Forall_forall _ _) Hin). }
  assert (taken ++ kept ≡ₚ b) as Hperm.
  { apply (at_index_Permutation b (idxs ++ not_in_set n sel));
      [|by apply Forall2_app].
    rewrite Hsel. apply filter_app_complement. }
  split; [done|].
  apply Permutation_length in Hperm. rewrite length_app in Hperm.
  apply Forall2_length in Htaken. lia.
Qed.

End Composition.

Lemma extract_button_exports_selection_witness :
  ∃ added,
    extract_button [10; 20; 30]%nat "3,1"
      = [DownloadButton (mkWriter added None)] ∧
    Forall2 (λ (i : Z) page, [10; 20; 30]%nat !! Z.to_nat i = Some page)
      [0; 2] added.
Proof.
  apply (extract_button_exports_selection [10; 20; 30]%nat "3,1" [0; 2]).
  - vm_compute; reflexivity.
  - discriminate.
Defined.

Lemma extract_delete_partition_witness :
  ∃ taken kept,
    extract_pages [10; 20; 30]%nat [0; 2] = Ok (mkWriter taken None) ∧
    delete_pages [10; 20; 30]%nat [0; 2] = Ok (mkWriter kept None) ∧
    taken ++ kept ≡ₚ [10; 20; 30]%nat ∧
    (length kept + length [0; 2] = length [10; 20; 30]%nat)%nat.
Proof.
  apply (extract_delete_partition [10; 20; 30]%nat "3,1" [0; 2]).
  vm_compute; reflexivity.
Defined.

(** ** The rotate tab *)

Lemma rotate_map_of_lookup (idxs : list Z) (angle i : Z) :
  rotate_map_of idxs angle !! i = if decide (i ∈ idxs) then Some angle else None.
Proof.
  unfold rotate_map_of. induction idxs as [|j idxs IH].
  - rewrite decide_False by apply not_elem_of_nil. apply lookup_empty.
  - rewrite fmap_cons, list_to_map_cons, lookup_insert.
    destruct (decide (j = i)) as [->|Hne].
    + by rewrite decide_True by (apply elem_of_cons; by left).
    + rewrite IH. destruct (decide (i ∈ idxs)) as [Hin|Hnin].
      * by rewrite decide_True by (apply elem_of_cons; by right).
      * rewrite decide_False; [done|].
        rewrite elem_of_cons. intros [->|?]; done.
Qed.

Section RotateTab.
Context {Page : Type}.
Variable page_rotate : Z → Page → Page.

(** X9. With a selection that parses and an angle of 90, 180 or 270, the
    rotate button exports every page of the document in place, the selected
    pages rotated by the angle and the others as they are. An empty
    selection adds the warning and still exports the document unchanged. *)
Theorem rotate_button_rotates_selection (b3 : list Page) (angle : Z)
    (pages_str : string) (idxs : list Z) :
  parse_page_ranges pages_str (get_page_count b3) = Ok idxs →
  angle ∈ [90; 180; 270] →
  ∃ out,
    rotate_button page_rotate b3 angle pages_str
      = (if decide (idxs = []) then [StWarning NoRotation] else [])
        ++ [DownloadButton out] ∧
    w_encrypt out = None ∧
    length (w_pages out) = length b3 ∧
    ∀ (k : nat) page, b3 !! k = Some page →
      w_pages out !! k
      = Some (if decide (Z.of_nat k ∈ idxs) then page_rotate angle page
              else page).
Proof.
  intros Hparse Hangle. unfold rotate_button. rewrite Hparse. simpl.
  eexists. split; [|split; [|split]].
  - by destruct idxs.
  - unfold rotate_pages. by rewrite rotate_loop_spec.
  - unfold rotate_pages. rewrite rotate_loop_spec. simpl.
    by rewrite length_imap.
  - intros k page Hk. rewrite rotate_pages_lookup, Hk. simpl.
    unfold rotate_one. rewrite rotate_map_of_lookup.
    destruct (decide (Z.of_nat k ∈ idxs)); [|done].
    unfold angle_ok. by rewrite bool_decide_eq_true_2.
Qed.

End RotateTab.

Lemma rotate_button_rotates_selection_witness :
  ∃ out,
    rotate_button (λ a p, (p + a) `mod` 360) [0; 90; 0] 180 "3"
      = (if decide ([2] = []) then [StWarning NoRotation] else [])
        ++ [DownloadButton out] ∧
    w_encrypt out = None ∧
    length (w_pages out) = length [0; 90; 0] ∧
    ∀ (k : nat) page, [0; 90; 0] !! k = Some page →
      w_pages out !! k
      = Some (if decide (Z.of_nat k ∈ [2]) then (page + 180) `mod` 360
              else page).
Proof.
  apply (rotate_button_rotates_selection (λ a p, (p + a) `mod` 360)
           [0; 90; 0] 180 "3" [2]).
  - vm_compute; reflexivity.
  - rewrite !elem_of_cons. lia.
Defined.

(** ** The reorder/delete tab *)

Section ReorderTab.
Context {Page : Type}.

Lemma reorder_final_idxs_kept (n2 : Z) (del_set : gset Z) (order_str : string) :
  Forall (λ i, 0 ≤ i < n2 ∧ i ∉ del_set)
         (reorder_final_idxs (Page:=Page) n2 del_set order_str).1.
Proof.
  apply Forall_forall. intros i. unfold reorder_final_idxs.
  destruct (Py.is_empty (Py.strip order_str)); simpl.
  - apply elem_of_not_in_set.
  - destruct (parse_reorder order_str n2); simpl.
    + intros [Hi _]%list_elem_of_filter. by apply elem_of_not_in_set.
    + apply elem_of_not_in_set.
Qed.

(** X10. Whatever the two strings are, the reorder/delete button never
    fails on a page index. Every index of its final plan is a page of the
    document that is not in the delete set; it exports the pages at the
    indices of the plan, in the order of the plan and with its repeats, or
    warns that nothing can be exported when the plan is empty. *)
Theorem reorder_button_exports_plan (b2 : list Page)
    (del_str order_str : string) :
  let n2 := get_page_count b2 in
  let del := reorder_del_set (Page:=Page) n2 del_str in
  let final := reorder_final_idxs (Page:=Page) n2 del.1 order_str in
  Forall (λ i, 0 ≤ i < n2 ∧ i ∉ del.1) final.1 ∧
  ∃ added,
    Forall2 (λ (i : Z) page, b2 !! Z.to_nat i = Some page) final.1 added ∧
    reorder_button b2 del_str order_str
      = del.2 ++ final.2 ++
        (if decide (final.1 = []) then [StWarning NothingToExport]
         else [DownloadButton (mkWriter added None)]).
Proof.
  intros n2 del final. subst del final. unfold reorder_button. fold n2.
  destruct (reorder_del_set n2 del_str) as [del_set ev_del]. simpl.
  pose proof (reorder_final_idxs_kept n2 del_set order_str) as Hkept.
  destruct (reorder_final_idxs n2 del_set order_str)
    as [final_idxs ev_order].
  simpl in *. split; [done|].
  destruct (add_pages_at_in_range b2 final_idxs new_writer) as
    (added & Hadd & Hadded).
  { eapply Forall_impl; [exact Hkept|]. by intros i [? _]. }
  exists added. split; [done|]. rewrite Hadd.
  by destruct final_idxs.
Qed.

End ReorderTab.

(** ** Merging *)

Section Merge.
Context {Page : Type}.

Lemma merge_pdfs_loop (fs : list (string * list Page)) (w : PdfWriter Page) :
  foldl (λ w '(name, b), add_all_pages b w) w fs
  = mkWriter (w_pages w ++ concat fs.*2) (w_encrypt w).
Proof.
  revert w. induction fs as [|[name b] fs IH]; intros w; simpl.
  - rewrite app_nil_r. by destruct w.
  - rewrite IH, add_all_pages_spec. simpl. by rewrite <- app_assoc.
Qed.

Lemma merge_pdfs_spec (fs : list (string * list Page)) :
  merge_pdfs fs = mkWriter (concat fs.*2) None.
Proof. unfold merge_pdfs. by rewrite merge_pdfs_loop. Qed.

(** X11. [merge_pdfs] puts all pages of all files into one unencrypted
    document, file after file and page after page; the names play no part.
    Merging is associative: merging the result of a merge with further
    files gives what merging all the files at once gives. *)
Theorem merge_pdfs_concatenates :
  (∀ fs : list (string * list Page),
     merge_pdfs fs = mkWriter (concat fs.*2) None) ∧
  (∀ (fs1 fs2 : list (string * list Page)) (name : string),
     merge_pdfs ((name, w_pages (merge_pdfs fs1)) :: fs2)
     = merge_pdfs (fs1 ++ fs2)).
Proof.
  split; [apply merge_pdfs_spec|].
  intros fs1 fs2 name. rewrite !merge_pdfs_spec. simpl.
  by rewrite fmap_app, concat_app.
Qed.

End Merge.

(** ** The order of the merge tab *)

Lemma insert_by_key_Permutation (x : Z * Z) (acc : list (Z * Z)) :
  insert_by_key x acc ≡ₚ x :: acc.
Proof.
  induction acc as [|y acc IH]; simpl; [done|].
  destruct (y.1 <=? x.1); [|done].
  rewrite IH. apply perm_swap.
Qed.

Lemma sorted_by_key_loop_Permutation (order acc : list (Z * Z)) :
  foldl (λ acc x, insert_by_key x acc) acc order ≡ₚ acc ++ order.
Proof.
  revert acc. induction order as [|x order IH]; intros acc; simpl.
  - by rewrite app_nil_r.
  - rewrite IH, insert_by_key_Permutation. simpl. apply Permutation_middle.
Qed.

Lemma sorted_by_key_Permutation (order : list (Z * Z)) :
  sorted_by_key order ≡ₚ order.
Proof. apply sorted_by_key_loop_Permutation. Qed.

Lemma insert_by_key_before (x : Z * Z) (acc : list (Z * Z)) :
  StronglySorted before acc → Forall (λ y, y.2 < x.2) acc →
  StronglySorted before (insert_by_key x acc).
Proof.
  induction 1 as [|y acc Hacc IH Hy]; intros Hpos; simpl.
  - repeat constructor.
  - apply Forall_cons in Hpos as [Hyx Hpos].
    destruct (y.1 <=? x.1) eqn:Hle.
    + constructor; [by apply IH|].
      rewrite insert_by_key_Permutation. constructor; [|done].
      unfold before. lia.
    + constructor; [by constructor|].
      constructor; [unfold before; lia|].
      eapply Forall_impl; [exact Hy|]. unfold before. intros z. lia.
Qed.

Lemma sorted_by_key_loop_before (order acc : list (Z * Z)) :
  StronglySorted before acc →
  (∀ y z, y ∈ acc → z ∈ order → y.2 < z.2) →
  StronglySorted (λ x y, x.2 < y.2) order →
  StronglySorted before (foldl (λ acc x, insert_by_key x acc) acc order).
Proof.
  revert acc.
  induction order as [|x order IH]; intros acc Hacc Hcross Hpos; simpl;
    [done|].
  apply StronglySorted_cons in Hpos as [Hx Hpos].
  apply IH; [| |done].
  - apply insert_by_key_before; [done|].
    apply Forall_forall. intros y Hy. apply Hcross; [done|].
    apply elem_of_cons. by left.
  - intros y z Hy Hz. rewrite insert_by_key_Permutation in Hy.
    apply elem_of_cons in Hy as [->|Hy].
    + by apply (proj1 (Forall_forall _ _) Hx).
    + apply Hcross; [done|]. apply elem_of_cons. by right.
Qed.

Lemma StronglySorted_fmap_seq {B} (R : relation B) (f : nat → B) (j n : nat) :
  (∀ i k, (j ≤ i)%nat → (i < k)%nat → (k < j + n)%nat → R (f i) (f k)) →
  StronglySorted R (f <$> seq j n).
Proof.
  revert j. induction n as [|n IH]; intros j Hf; simpl; [constructor|].
  constructor.
  - apply IH. intros i k ? ? ?. apply Hf; lia.
  - apply Forall_fmap, Forall_forall. intros k Hk%elem_of_seq.
    apply Hf; lia.
Qed.

Section MergeTab.
Context {Page : Type}.
Implicit Types (valid_files : list (string * list Page)).

Lemma merge_order_seq (number_input : nat → Z) valid_files :
  merge_order number_input valid_files
  = (λ i, (number_input i, Z.of_nat i)) <$> seq 0 (length valid_files).
Proof. unfold merge_order. apply imap_seq_0. Qed.

Lemma merge_order_positions (number_input : nat → Z) valid_files :
  (merge_order number_input valid_files).*2
  = Py.range 0 (Z.of_nat (length valid_files)).
Proof.
  rewrite merge_order_seq, <- list_fmap_compose. unfold Py.range.
  rewrite Z.sub_0_r, Nat2Z.id. apply list_fmap_ext. intros ? i _. simpl. lia.
Qed.

Lemma files_at_in_range valid_files (sorted_order : list (Z * Z)) :
  Forall (λ x, 0 ≤ x.2 < Z.of_nat (length valid_files)) sorted_order →
  ∃ files,
    files_at valid_files sorted_order = Ok files ∧
    Forall2 (λ x f, valid_files !! Z.to_nat x.2 = Some f) sorted_order files.
Proof.
  induction sorted_order as [|[v i] rest IH]; intros Hall; simpl.
  - by exists [].
  - apply Forall_cons in Hall as [Hi Hall]. simpl in Hi.
    destruct (IH Hall) as (files & -> & Hfiles).
    unfold list_getitem.
    replace (i <? 0) with false by lia.
    replace ((0 <=? i) && (i <? Z.of_nat (length valid_files))) with true
      by (symmetry; apply andb_true_iff; lia).
    destruct (valid_files !! Z.to_nat i) as [f|] eqn:Hf.
    + simpl. exists (f :: files). split; [done|]. by constructor.
    + apply lookup_ge_None in Hf. lia.
Qed.

Lemma sorted_merge_order_in_range (number_input : nat → Z) valid_files :
  Forall (λ x, 0 ≤ x.2 < Z.of_nat (length valid_files))
         (sorted_by_key (merge_order number_input valid_files)).
Proof.
  rewrite sorted_by_key_Permutation, merge_order_seq.
  apply Forall_fmap, Forall_forall. intros i Hi%elem_of_seq. simpl. lia.
Qed.

Lemma merge_order_files (number_input : nat → Z) valid_files :
  Forall2 (λ x f, valid_files !! Z.to_nat x.2 = Some f)
          (merge_order number_input valid_files) valid_files.
Proof.
  apply Forall2_same_length_lookup_2.
  - unfold merge_order. apply length_imap.
  - intros k x f Hx Hf. unfold merge_order in Hx.
    rewrite list_lookup_imap, Hf in Hx. injection Hx as <-. simpl.
    by rewrite Nat2Z.id.
Qed.

Lemma sorted_merge_order_before (number_input : nat → Z) valid_files :
  StronglySorted before (sorted_by_key (merge_order number_input valid_files)).
Proof.
  apply sorted_by_key_loop_before; [constructor| |].
  - intros y z Hy. by apply elem_of_nil in Hy.
  - rewrite merge_order_seq. apply StronglySorted_fmap_seq.
    intros i k _ Hik _. simpl. lia.
Qed.

(** X12. The merge button never fails. It merges every valid file exactly
    once, in ascending order of the numbers typed for them; files with the
    same number stay in upload order. *)
Theorem merge_button_orders_files (number_input : nat → Z) valid_files :
  let sorted_order := sorted_by_key (merge_order number_input valid_files) in
  StronglySorted before sorted_order ∧
  ∃ files,
    Forall2 (λ x f, valid_files !! Z.to_nat x.2 = Some f ∧
                    x.1 = number_input (Z.to_nat x.2))
            sorted_order files ∧
    files ≡ₚ valid_files ∧
    merge_button number_input valid_files
      = [DownloadButton (mkWriter (concat files.*2) None)].
Proof.
  intros sorted_order. split; [apply sorted_merge_order_before|].
  - destruct (files_at_in_range valid_files sorted_order
                (sorted_merge_order_in_range _ _)) as (files & Hok & Hfiles).
    exists files. split; [|split].
    + apply Forall2_same_length_lookup_2; [by eapply Forall2_length|].
      intros k x f Hx Hf.
      split; [exact (Forall2_lookup_lr _ _ _ _ _ _ Hfiles Hx Hf)|].
      assert (x ∈ merge_order number_input valid_files) as Hin.
      { rewrite <- (sorted_by_key_Permutation _).
        by eapply list_elem_of_lookup_2. }
      rewrite merge_order_seq in Hin.
      apply list_elem_of_fmap in Hin as (i & -> & _). simpl.
      by rewrite Nat2Z.id.
    + apply (at_index_Permutation valid_files sorted_order.*2).
      * unfold sorted_order. rewrite sorted_by_key_Permutation.
        by rewrite merge_order_positions.
      * by apply Forall2_fmap_l.
    + unfold merge_button, order_sorted. fold sorted_order. rewrite Hok.
      by rewrite merge_pdfs_spec.
Qed.

(** X13. When the numbers do not decrease along the upload order, as with
    the default numbers 1, 2, 3, ..., the merge button merges the files in
    upload order. *)
Theorem merge_button_keeps_upload_order (number_input : nat → Z) valid_files :
  (∀ i j, (i ≤ j)%nat → number_input i ≤ number_input j) →
  merge_button number_input valid_files
    = [DownloadButton (mkWriter (concat valid_files.*2) None)].
Proof.
  intros Hmono.
  assert (sorted_by_key (merge_order number_input valid_files)
          = merge_order number_input valid_files) as Hsame.
  { apply (StronglySorted_unique_strong before).
    - unfold before. intros x y _ _. lia.
    - apply sorted_merge_order_before.
    - rewrite merge_order_seq. apply StronglySorted_fmap_seq.
      intros i k _ Hik _. unfold before. simpl.
      specialize (Hmono i k). lia.
    - apply sorted_by_key_Permutation. }
  unfold merge_button, order_sorted. rewrite Hsame.
  destruct (files_at_in_range valid_files (merge_order number_input valid_files))
    as (files & -> & Hfiles).
  { rewrite <- Hsame. apply sorted_merge_order_in_range. }
  assert (files = valid_files) as ->; [|by rewrite merge_pdfs_spec].
  eapply Forall2_unique; [exact Hfiles|apply merge_order_files|].
  intros x f1 f2 H1 H2. simpl in *. congruence.
Qed.

End MergeTab.

Lemma merge_button_keeps_upload_order_witness :
  merge_button (λ i, Z.of_nat i + 1) [("a", [1; 2]%nat); ("b", [3]%nat)]
  = [DownloadButton (mkWriter [1; 2; 3]%nat None)].
Proof.
  apply (merge_button_keeps_upload_order (λ i, Z.of_nat i + 1)
           [("a", [1; 2]%nat); ("b", [3]%nat)]).
  intros i j Hij. lia.
Defined.

(** ** Text extraction *)

Lemma filter_Forall_id {A} (P : A → Prop) `{∀ x, Decision (P x)} (l : list A) :
  Forall P l → filter P l = l.
Proof.
  induction 1 as [|x l Hx Hl IH]; [done|].
  by rewrite filter_cons, decide_True, IH.
Qed.

Lemma Forall2_fmap_eq {A B C} (f : A → C) (g : B → C) (l : list A)
    (k : list B) :
  Forall2 (λ x y, f x = g y) l k → f <$> l = g <$> k.
Proof.
  induction 1 as [|x y l k Hxy _ IH]; [done|].
  rewrite !fmap_cons. by f_equal.
Qed.

Section TextExtraction.
Context {Page : Type}.
Variable extract_text : Page → result Exception string.
Implicit Types (pages b : list Page).

Lemma page_texts_spec pages (page_indices : list Z) (texts : list string) :
  page_texts extract_text pages page_indices texts
  = texts ++ (text_or_empty extract_text pages
                <$> filter (λ i, 0 ≤ i < get_page_count pages) page_indices).
Proof.
  revert texts. induction page_indices as [|i rest IH]; intros texts; simpl.
  - by rewrite app_nil_r.
  - rewrite filter_cons.
    destruct (decide (0 ≤ i < get_page_count pages)) as [Hi|Hi].
    + replace ((0 <=? i) && (i <? get_page_count pages)) with true
        by (symmetry; apply andb_true_iff; lia).
      rewrite IH. simpl. by rewrite <- app_assoc.
    + replace ((0 <=? i) && (i <? get_page_count pages)) with false
        by (symmetry; apply andb_false_iff; lia).
      apply IH.
Qed.

Lemma text_or_empty_in_range pages (i : Z) (page : Page) :
  0 ≤ i → pages !! Z.to_nat i = Some page →
  text_or_empty extract_text pages i = page_text extract_text page.
Proof.
  intros Hi Hpage. unfold text_or_empty.
  apply lookup_lt_Some in Hpage as Hlt.
  destruct (pages_getitem_in_range pages i) as (page' & -> & Hpage').
  { unfold get_page_count. lia. }
  simpl. by replace page' with page by congruence.
Qed.

Lemma texts_at pages (idxs : list Z) (pages_at : list Page) :
  Forall (λ i, 0 ≤ i) idxs →
  Forall2 (λ (i : Z) page, pages !! Z.to_nat i = Some page) idxs pages_at →
  text_or_empty extract_text pages <$> idxs
  = page_text extract_text <$> pages_at.
Proof.
  intros Hpos Hat. apply Forall2_fmap_eq.
  apply Forall2_same_length_lookup_2; [by eapply Forall2_length|].
  intros k i page Hi Hpage. apply text_or_empty_in_range.
  - by apply (proj1 (Forall_lookup _ _) Hpos k i).
  - exact (Forall2_lookup_lr _ _ _ _ _ _ Hat Hi Hpage).
Qed.

(** X14. [extract_text_by_pages] never fails. Indices outside the document,
    negative ones included, are skipped; every other index gives one text,
    in the order of the indices and with repeats; the text of a page whose
    extraction raises is empty; the texts are joined by newlines. *)
Theorem extract_text_by_pages_best_effort pages (page_indices : list Z) :
  ∃ pages_at,
    Forall2 (λ (i : Z) page, pages !! Z.to_nat i = Some page)
            (filter (λ i, 0 ≤ i < get_page_count pages) page_indices)
            pages_at ∧
    extract_text_by_pages extract_text pages page_indices
      = join_lines (page_text extract_text <$> pages_at).
Proof.
  set (kept := filter (λ i, 0 ≤ i < get_page_count pages) page_indices).
  assert (Forall (λ i, 0 ≤ i < get_page_count pages) kept) as Hin.
  { apply Forall_forall. by intros i [Hi _]%list_elem_of_filter. }
  destruct (add_pages_at_in_range pages kept new_writer Hin)
    as (pages_at & _ & Hat).
  exists pages_at. split; [done|].
  unfold extract_text_by_pages. rewrite page_texts_spec. simpl. fold kept.
  f_equal. apply texts_at; [|done].
  eapply Forall_impl; [exact Hin|]. intros i. simpl. lia.
Qed.

(** X15. The text button with an empty range shows the text of all pages
    in document order. With a range that parses it shows one text for every
    index of the sequence, none skipped. With a range that does not parse
    it shows the error. An empty result is shown as the placeholder. *)
Theorem extract_text_button_outcomes b (ranges_str : string) :
  (Py.is_empty (Py.strip ranges_str) = true →
   extract_text_button extract_text b ranges_str
     = shown (join_lines (page_text extract_text <$> b))) ∧
  (∀ idxs, Py.is_empty (Py.strip ranges_str) = false →
     parse_reorder ranges_str (get_page_count b) = Ok idxs →
     ∃ pages_at,
       Forall2 (λ (i : Z) page, b !! Z.to_nat i = Some page) idxs pages_at ∧
       extract_text_button extract_text b ranges_str
         = shown (join_lines (page_text extract_text <$> pages_at))) ∧
  (∀ e, parse_reorder ranges_str (get_page_count b) = Raise e →
     extract_text_button extract_text b ranges_str
       = TextError (EValueError e)).
Proof.
  unfold extract_text_button, extract_text_by_pages. split; [|split].
  - intros ->. rewrite page_texts_spec. simpl.
    rewrite filter_Forall_id
      by (apply Forall_forall; intros i Hi%elem_of_range; lia).
    rewrite (texts_at b _ b); [done| |apply at_index_range].
    apply Forall_forall. intros i Hi%elem_of_range. lia.
  - intros idxs -> Hparse. rewrite Hparse. simpl.
    pose proof (parse_reorder_in_range _ _ _ Hparse) as Hin.
    destruct (add_pages_at_in_range b idxs new_writer Hin)
      as (pages_at & _ & Hat).
    exists pages_at. split; [done|].
    rewrite page_texts_spec. simpl. rewrite filter_Forall_id by done.
    rewrite (texts_at b idxs pages_at); [done| |done].
    eapply Forall_impl; [exact Hin|]. intros i. simpl. lia.
  - intros e He. rewrite (parse_reorder_raise_nonempty _ _ _ He).
    by rewrite He.
Qed.

End TextExtraction.

Lemma extract_text_button_outcomes_witness :
  extract_text_button (λ p : nat, if (p =? 0)%nat then Raise EIndexError
                                  else Ok "x") [1; 0; 2]%nat "  "
  = shown (join_lines
             (page_text (λ p : nat, if (p =? 0)%nat then Raise EIndexError
                                    else Ok "x") <$> [1; 0; 2]%nat)).
Proof.
  destruct (extract_text_button_outcomes
              (λ p : nat, if (p =? 0)%nat then Raise EIndexError else Ok "x")
              [1; 0; 2]%nat "  ") as (Hall & _ & _).
  apply Hall. reflexivity.
Defined.

(** ** Metadata *)

Section Metadata.
Context {Page : Type}.
Variable info0 : gmap string string.

Lemma lookup_set_if (key value : string) (new_meta : gmap string string)
    (k : string) :
  set_if key value new_meta !! k
  = if decide (key = k)
    then (if Py.is_empty value then new_meta !! k else Some value)
    else new_meta !! k.
Proof.
  unfold set_if. destruct (decide (key = k)) as [->|Hne].
  - destruct (Py.is_empty value); [done|]. apply lookup_insert_eq.
  - destruct (Py.is_empty value); [done|]. by apply lookup_insert_ne.
Qed.

(** X16. The metadata button passes all pages on unchanged and always
    sets [/ModDate] to the time stamp. Each of the six fields sets its key
    when it is not empty and leaves it as in a new writer when it is empty;
    no other key is touched. *)
Theorem metadata_button_sets_fields (b5 : list Page)
    (title author subject keywords producer creator mod_date : string) :
  let out := metadata_button info0 b5 title author subject keywords producer
               creator mod_date in
  out.1 = mkWriter b5 None ∧
  out.2 !! "/ModDate" = Some mod_date ∧
  (∀ key field,
     (key, field) ∈ meta_fields title author subject keywords producer creator →
     out.2 !! key = if Py.is_empty field then info0 !! key else Some field) ∧
  (∀ key,
     key ∉ "/ModDate" ::
           (meta_fields title author subject keywords producer creator).*1 →
     out.2 !! key = info0 !! key).
Proof.
  unfold metadata_button, edit_metadata, metadata_new_meta.
  rewrite decide_False by apply insert_non_empty.
  simpl. split; [by rewrite add_all_pages_spec|].
  unfold add_metadata. split; [|split].
  - by rewrite lookup_union, lookup_insert_eq, union_Some_l.
  - intros key field Hin. unfold meta_fields in Hin.
    rewrite lookup_union.
    repeat (apply elem_of_cons in Hin as [[= -> ->]|Hin]);
      [..|by apply elem_of_nil in Hin];
      rewrite lookup_insert_ne by done; rewrite !lookup_set_if; simpl;
      rewrite lookup_empty; destruct (Py.is_empty _); simpl;
      by destruct (info0 !! _).
  - intros key Hkey. unfold meta_fields in Hkey. simpl in Hkey.
    rewrite !not_elem_of_cons in Hkey.
    destruct Hkey as (? & ? & ? & ? & ? & ? & ? & _).
    rewrite lookup_union, lookup_insert_ne by done.
    rewrite !lookup_set_if. rewrite !decide_False by done.
    rewrite lookup_empty. by destruct (info0 !! key).
Qed.

End Metadata.

Lemma metadata_button_sets_fields_witness :
  let out := metadata_button (Page:=nat) {["/Producer" := "pypdf"]} [7; 8]%nat
               "T" "" "" "" "" "" "D:20240101000000+00'00'" in
  out.2 !! "/Title" = Some "T" ∧ out.2 !! "/Producer" = Some "pypdf" ∧
  out.2 !! "/Author" = None.
Proof.
  destruct (metadata_button_sets_fields (Page:=nat) {["/Producer" := "pypdf"]}
              [7; 8]%nat "T" "" "" "" "" "" "D:20240101000000+00'00'")
    as (_ & _ & Hfield & _).
  simpl. split; [|split].
  - apply (Hfield "/Title" "T"). unfold meta_fields. rewrite !elem_of_cons.
    tauto.
  - apply (Hfield "/Producer" ""). unfold meta_fields. rewrite !elem_of_cons.
    tauto.
  - apply (Hfield "/Author" ""). unfold meta_fields. rewrite !elem_of_cons.
    tauto.
Defined.

(** ** Where the two modes differ *)

Lemma reorder_token_page_ranges tok max_page part pages :
  reorder_token tok max_page [] = Ok part →
  page_ranges_token tok max_page pages = Ok (list_to_set part ∪ pages) ∨
  (descending_range tok ∧
   page_ranges_token tok max_page pages = Raise (RangeOutOrInvalid tok)).
Proof.
  unfold reorder_token, page_ranges_token, descending_range. intros Htok.
  destruct (Py.contains_hyphen tok).
  - destruct (Py.split_hyphen_1 tok) as [|a [|b [|? ?]]] eqn:Hs;
      try discriminate.
    destruct (Py.int a) as [start|] eqn:Ha; [|discriminate].
    destruct (Py.int b) as [end_|] eqn:Hb; [|discriminate].
    destruct (_ || _ || _ || _) eqn:Hc; [discriminate|]. simpl.
    destruct (start <=? end_) eqn:Hle; injection Htok as <-.
    + left. rewrite Z.gtb_ltb. replace (end_ <? start) with false by lia.
      simpl. f_equal. apply add_all_union.
    + right. rewrite Z.gtb_ltb. replace (end_ <? start) with true by lia.
      split; [|done]. split; [done|]. exists a, b, start, end_.
      repeat split; try done. lia.
  - destruct (Py.int tok) as [p|]; [|discriminate].
    destruct (_ || _); [discriminate|]. injection Htok as <-. left.
    f_equal. apply set_eq. intros x. simpl.
    rewrite !elem_of_union, elem_of_empty. tauto.
Qed.

Lemma reorder_loop_page_ranges tokens max_page seq pages :
  reorder_loop tokens max_page [] = Ok seq →
  page_ranges_loop tokens max_page pages = Ok (list_to_set seq ∪ pages) ∨
  ∃ tok, tok ∈ tokens ∧ descending_range tok ∧
         page_ranges_loop tokens max_page pages
           = Raise (RangeOutOrInvalid tok).
Proof.
  revert seq pages.
  induction tokens as [|tok rest IH]; intros seq pages; simpl.
  - intros [= <-]. left. f_equal. apply set_eq. intros x.
    rewrite elem_of_union, elem_of_list_to_set, elem_of_nil. tauto.
  - destruct (Py.is_empty tok).
    { intros Hseq. destruct (IH _ pages Hseq) as [->|(t & Hin & Hd & ->)];
        [by left|].
      right. exists t. split; [by apply elem_of_cons; right|done]. }
    destruct (reorder_token tok max_page []) as [part|e] eqn:Ht;
      [|discriminate]; simpl.
    rewrite reorder_loop_acc.
    destruct (reorder_loop rest max_page []) as [seq'|e] eqn:Hrest;
      [|discriminate]; simpl.
    intros [= <-].
    destruct (reorder_token_page_ranges _ _ _ pages Ht) as [->|[Hd ->]];
      simpl.
    + destruct (IH _ (list_to_set part ∪ pages) eq_refl)
        as [->|(t & Hin & Hd & ->)].
      * left. f_equal. apply set_eq. intros x.
        rewrite !elem_of_union, !elem_of_list_to_set, elem_of_app. tauto.
      * right. exists t. split; [by apply elem_of_cons; right|done].
    + right. exists tok. split; [by apply elem_of_cons; left|done].
Qed.

(** X17. The two modes differ on descending ranges only. A selection
    string that sequence mode accepts is accepted by set mode too, with the
    sorted set of the same indices, unless one of its tokens is a descending
    range; then set mode rejects it with the error "out of page range or
    invalid" for such a token. *)
Theorem parse_modes_differ_on_descending_ranges
    (ranges_str : string) (max_page : Z) (seq : list Z) :
  parse_reorder ranges_str max_page = Ok seq →
  parse_page_ranges ranges_str max_page = Ok (Py.sorted (list_to_set seq)) ∨
  ∃ tok, tok ∈ Py.re_split_seps (Py.strip ranges_str) ∧
         descending_range tok ∧
         parse_page_ranges ranges_str max_page
           = Raise (RangeOutOrInvalid tok).
Proof.
  unfold parse_reorder, parse_page_ranges.
  destruct (Py.is_empty (Py.strip ranges_str)).
  - intros [= <-]. left. unfold Py.sorted. simpl. by rewrite elements_empty.
  - intros Hseq.
    destruct (reorder_loop_page_ranges _ _ _ ∅ Hseq)
      as [->|(tok & Hin & Hd & ->)]; simpl.
    + left. do 2 f_equal. apply set_eq. intros x.
      rewrite elem_of_union, elem_of_empty. tauto.
    + right. by exists tok.
Qed.

Lemma parse_modes_differ_on_descending_ranges_witness :
  parse_page_ranges "1,3-2" 3 = Ok (Py.sorted (list_to_set [0; 2; 1])) ∨
  ∃ tok, tok ∈ Py.re_split_seps (Py.strip "1,3-2") ∧
         descending_range tok ∧
         parse_page_ranges "1,3-2" 3 = Raise (RangeOutOrInvalid tok).
Proof.
  apply (parse_modes_differ_on_descending_ranges "1,3-2" 3 [0; 2; 1]).
  vm_compute; reflexivity.
Defined.

(** ** Indices outside the document in [delete_pages] *)

Lemma filter_ext_in {A} (P Q : A → Prop) `{∀ x, Decision (P x)}
    `{∀ x, Decision (Q x)} (l : list A) :
  (∀ x, x ∈ l → (P x ↔ Q x)) → filter P l = filter Q l.
Proof.
  induction l as [|x l IH]; intros Hext; [done|].
  rewrite !filter_cons.
  assert (P x ↔ Q x) as Hx by (apply Hext, elem_of_cons; by left).
  rewrite IH by (intros y Hy; apply Hext, elem_of_cons; by right).
  destruct (decide (P x)), (decide (Q x)); tauto.
Qed.

Section DeleteOutside.
Context {Page : Type}.

(** X18. [delete_pages] looks only at the indices that lie inside the
    document: indices that are negative or beyond the last page delete
    nothing and raise nothing (a negative index does not count from the
    end). *)
Theorem delete_pages_ignores_outside (pages : list Page)
    (page_indices : list Z) :
  delete_pages pages page_indices
  = delete_pages pages
      (filter (λ i, 0 ≤ i < get_page_count pages) page_indices).
Proof.
  unfold delete_pages, not_in_set. f_equal.
  apply filter_ext_in. intros i Hi%elem_of_range.
  rewrite !elem_of_list_to_set, list_elem_of_filter. tauto.
Qed.

End DeleteOutside.
